(** * linear_human.py: the simulated human of crazyflie_human

    A shallow embedding of [LinearHuman] (src/linear_human.py): the waypoint
    schedule built by [load_parameters], the interpolation of [update_pose],
    and the two coordinate transforms [sim_to_real_coord] and
    [real_to_sim_coord].

    Numbers.  The program computes on Python floats.  They are modelled by the
    rationals [Q], compared with [==] ([Qeq]): every statement below is about
    exact arithmetic, and says nothing about rounding of floats.  Configured
    coordinates are taken to be floats (so [/] is true division).

    Exceptions.  A division by zero and a list index out of range raise; a
    computation is a value of [result], either [Ok v] or [Raise e].

    What is left out: the ROS node, the parameter server, the transport of the
    publishers and the wall clock (so the time stamps of messages).  The tick
    loop of [__init__] is modelled over the list of elapsed times it
    samples. *)

From Stdlib Require Import String.
From Stdlib Require Import QArith Qround Qabs ZArith List Bool Lia Lqa.
Import ListNotations.

Open Scope Q_scope.

(** ** Exceptions *)

Inductive exn : Type :=
| ZeroDivisionError
| IndexError.

Inductive result (A : Type) : Type :=
| Ok (a : A)
| Raise (e : exn).

Arguments Ok {A} a.
Arguments Raise {A} e.

Definition bind {A B : Type} (m : result A) (k : A -> result B) : result B :=
  match m with
  | Ok a => k a
  | Raise e => Raise e
  end.

Notation "x <- m ;; k" := (bind m (fun x => k))
  (at level 61, m at next level, right associativity).

(** ** Python primitives *)

(** [a / b] on floats: raises when the divisor is zero. *)
Definition py_div (a b : Q) : result Q :=
  if Qeq_bool b 0 then Raise ZeroDivisionError else Ok (a / b).

(** [int(x)]: truncation toward zero. *)
Definition py_int (x : Q) : Z := Z.quot (Qnum x) (Zpos (Qden x)).

(** [l[i]]: a negative index counts from the end; out of range raises. *)
Definition py_index {A : Type} (l : list A) (i : Z) : result A :=
  let len := Z.of_nat (length l) in
  let j := if (i <? 0)%Z then (i + len)%Z else i in
  if ((0 <=? j) && (j <? len))%Z then
    match nth_error l (Z.to_nat j) with
    | Some a => Ok a
    | None => Raise IndexError
    end
  else Raise IndexError.

(** [range(n)] *)
Definition py_range (n : nat) : list Z := map Z.of_nat (seq 0 n).

(** [round(x)].  Python 2 rounds a tie away from zero, Python 3 to the even
    neighbour; the file runs under either, so the mode is a parameter. *)
Inductive round_mode : Type :=
| HalfAwayFromZero
| HalfToEven.

Definition py_round (m : round_mode) (x : Q) : Q :=
  match m with
  | HalfAwayFromZero =>
      if Qle_bool 0 x then inject_Z (Qfloor (x + (1 # 2)))
      else inject_Z (- Qfloor (- x + (1 # 2)))
  | HalfToEven =>
      let f := Qfloor x in
      match (x - inject_Z f) ?= (1 # 2) with
      | Lt => inject_Z f
      | Gt => inject_Z (f + 1)
      | Eq => if Z.even f then inject_Z f else inject_Z (f + 1)
      end
  end.

(** ** Points and numpy arithmetic on them *)

(** A point [[x, y]]. *)
Definition point : Type := (Q * Q)%type.

Definition peq (p q : point) : Prop := fst p == fst q /\ snd p == snd q.

Definition np_sub (p q : point) : point := (fst p - fst q, snd p - snd q).
Definition np_add (p q : point) : point := (fst p + fst q, snd p + snd q).
Definition np_scale (p : point) (c : Q) : point := (fst p * c, snd p * c).

(** ** The object *)

(** The position of [self.human_pose] (a [PoseStamped]). *)
Record Pose : Type := mkPose { pos_x : Q; pos_y : Q; pos_z : Q }.

(** The parameters read from the parameter server. *)
Record Params : Type := mkParams {
  p_lower : point;
  p_upper : point;
  p_real_start : point;
  p_real_goals : list point;
  p_sim_height : Z;
  p_sim_width : Z
}.

Record LinearHuman : Type := mkLinearHuman {
  real_height : Q;
  real_width : Q;
  real_lower : point;
  real_upper : point;
  real_start : point;
  real_goals : list point;
  final_T : Q;
  step_time : Q;
  waypt_times : list Q;
  human_pose : option Pose;
  sim_height : Z;
  sim_width : Z;
  res_x : Q;
  res_y : Q;
  prev_pose : point
}.

(** ** load_parameters *)

(** The body of [load_parameters], for a value [T] of [self.final_T]. *)
Definition load_parameters_with (T : Q) (cfg : Params) : result LinearHuman :=
  let low := p_lower cfg in
  let up := p_upper cfg in
  let height := snd up - snd low in
  let width := fst up - fst low in
  let goals := p_real_goals cfg in
  step <- py_div T (inject_Z (Z.of_nat (length goals) + 1)) ;;
  let times := map (fun i => inject_Z i * step) (py_range (length goals + 2)) in
  let sh := p_sim_height cfg in
  let sw := p_sim_width cfg in
  rx <- py_div width (inject_Z (sw - 1)) ;;
  ry <- py_div height (inject_Z (sh - 1)) ;;
  Ok {| real_height := height;
        real_width := width;
        real_lower := low;
        real_upper := up;
        real_start := p_real_start cfg;
        real_goals := goals;
        final_T := T;
        step_time := step;
        waypt_times := times;
        human_pose := None;
        sim_height := sh;
        sim_width := sw;
        res_x := rx;
        res_y := ry;
        prev_pose := p_real_start cfg |}.

(** [self.final_T = 60.0] *)
Definition load_parameters (cfg : Params) : result LinearHuman :=
  load_parameters_with 60 cfg.

(** ** update_pose *)

Definition set_pose (self : LinearHuman) (hp : option Pose) (pp : point)
  : LinearHuman :=
  {| real_height := real_height self;
     real_width := real_width self;
     real_lower := real_lower self;
     real_upper := real_upper self;
     real_start := real_start self;
     real_goals := real_goals self;
     final_T := final_T self;
     step_time := step_time self;
     waypt_times := waypt_times self;
     human_pose := hp;
     sim_height := sim_height self;
     sim_width := sim_width self;
     res_x := res_x self;
     res_y := res_y self;
     prev_pose := pp |}.

Definition pose_of (target_pos : point) : option Pose :=
  Some {| pos_x := fst target_pos; pos_y := snd target_pos; pos_z := 0 |}.

Definition update_pose (self : LinearHuman) (curr_time : Q)
  : result LinearHuman :=
  let waypts := [real_start self] ++ real_goals self ++ [real_start self] in
  if Qle_bool (final_T self) curr_time then
    let target_pos := real_start self in
    Ok (set_pose self (pose_of target_pos) (prev_pose self))
  else
    q <- py_div curr_time (step_time self) ;;
    let curr_waypt_idx := py_int q in
    prev <- py_index waypts curr_waypt_idx ;;
    next <- py_index waypts (curr_waypt_idx + 1) ;;
    ti <- py_index (waypt_times self) curr_waypt_idx ;;
    tf <- py_index (waypt_times self) (curr_waypt_idx + 1) ;;
    f <- py_div (curr_time - ti) (tf - ti) ;;
    let target_pos := np_add (np_scale (np_sub next prev) f) prev in
    Ok (set_pose self (pose_of target_pos) target_pos).

(** The position [update_pose] leaves in [self.human_pose]. *)
Definition pose_xy (self : LinearHuman) : option point :=
  match human_pose self with
  | Some p => Some (pos_x p, pos_y p)
  | None => None
  end.

(** The spec's [position_at]: one call of [update_pose], read back. *)
Definition position_at (self : LinearHuman) (t : Q) : result (option point) :=
  self' <- update_pose self t ;;
  Ok (pose_xy self').

(** ** The tick loop of __init__ *)

(** The loop body, once per sampled elapsed time; the published positions are
    collected in order. *)
Fixpoint tick_loop (self : LinearHuman) (ts : list Q)
  : result (LinearHuman * list (option Pose)) :=
  match ts with
  | [] => Ok (self, [])
  | t :: ts' =>
      self1 <- update_pose self t ;;
      r <- tick_loop self1 ts' ;;
      Ok (fst r, human_pose self1 :: snd r)
  end.

Definition init (cfg : Params) (ts : list Q)
  : result (LinearHuman * list (option Pose)) :=
  self <- load_parameters cfg ;;
  tick_loop self ts.

(** ** Coordinate transforms *)

(** A cell of the simulation grid. *)
Definition cell : Type := (Z * Z)%type.

Definition sim_to_real_coord (self : LinearHuman) (sim_coord : cell) : point :=
  (inject_Z (fst sim_coord) * res_x self + fst (real_lower self),
   snd (real_upper self) - inject_Z (snd sim_coord) * res_y self).

Definition real_to_sim_coord (m : round_mode) (self : LinearHuman)
  (real_coord : point) : result cell :=
  qx <- py_div (fst real_coord - fst (real_lower self)) (res_x self) ;;
  qy <- py_div (snd (real_upper self) - snd real_coord) (res_y self) ;;
  Ok (py_int (py_round m qx), py_int (py_round m qy)).

(** ** Reachable states *)

(** The states of the object: the one [load_parameters] builds, and those
    [update_pose] leads to. *)
Inductive reachable (cfg : Params) : LinearHuman -> Prop :=
| reach_load : forall self,
    load_parameters cfg = Ok self -> reachable cfg self
| reach_update : forall self t self',
    reachable cfg self -> update_pose self t = Ok self' ->
    reachable cfg self'.

(** [k] calls of [update_pose] at the same time. *)
Fixpoint update_pose_n (k : nat) (self : LinearHuman) (t : Q)
  : result LinearHuman :=
  match k with
  | O => Ok self
  | S k' => self' <- update_pose self t ;; update_pose_n k' self' t
  end.

(** The waypoint sequence of [update_pose]. *)
Definition waypts (self : LinearHuman) : list point :=
  [real_start self] ++ real_goals self ++ [real_start self].

(** The schedule fields of a state, as [load_parameters_with T] sets them. *)
Definition scheduled (T : Q) (self : LinearHuman) : Prop :=
  final_T self = T /\
  step_time self = T / inject_Z (Z.of_nat (length (real_goals self)) + 1) /\
  waypt_times self =
    map (fun i => inject_Z i * step_time self)
        (py_range (length (real_goals self) + 2)).

(** ** Derived notions used in the statements *)

(** The object a successful construction returns. *)
Definition loaded (T : Q) (cfg : Params) : LinearHuman :=
  let step := T / inject_Z (Z.of_nat (length (p_real_goals cfg)) + 1) in
  {| real_height := snd (p_upper cfg) - snd (p_lower cfg);
     real_width := fst (p_upper cfg) - fst (p_lower cfg);
     real_lower := p_lower cfg;
     real_upper := p_upper cfg;
     real_start := p_real_start cfg;
     real_goals := p_real_goals cfg;
     final_T := T;
     step_time := step;
     waypt_times :=
       map (fun i => inject_Z i * step)
         (py_range (length (p_real_goals cfg) + 2));
     human_pose := None;
     sim_height := p_sim_height cfg;
     sim_width := p_sim_width cfg;
     res_x := (fst (p_upper cfg) - fst (p_lower cfg))
              / inject_Z (p_sim_width cfg - 1);
     res_y := (snd (p_upper cfg) - snd (p_lower cfg))
              / inject_Z (p_sim_height cfg - 1);
     prev_pose := p_real_start cfg |}.

(** The position of the interpolation branch, from the segment's waypoints
    and boundary times. *)
Definition interpolate (p0 p1 : point) (t0 t1 t : Q) : point :=
  np_add (np_scale (np_sub p1 p0) ((t - t0) / (t1 - t0))) p0.

(** ** Example configurations *)

(** One goal: start (0,0), goal (10,0), a 10 x 10 grid over [0,9] x [0,9]. *)
Definition cfg_one_goal : Params :=
  {| p_lower := (0, 0);
     p_upper := (9, 9);
     p_real_start := (0, 0);
     p_real_goals := [(10, 0)];
     p_sim_height := 10;
     p_sim_width := 10 |}.

(** The same space with no goal. *)
Definition cfg_no_goal : Params :=
  {| p_lower := (0, 0);
     p_upper := (9, 9);
     p_real_start := (0, 0);
     p_real_goals := [];
     p_sim_height := 10;
     p_sim_width := 10 |}.

(** A grid one cell wide. *)
Definition cfg_flat_grid : Params :=
  {| p_lower := (0, 0);
     p_upper := (9, 9);
     p_real_start := (0, 0);
     p_real_goals := [(10, 0)];
     p_sim_height := 10;
     p_sim_width := 1 |}.

(** ** The specification's wording, where it differs *)

(** The scenario as the specification words it: boundaries [0,20,40,60] and
    the midpoint (5,0) at times 10 and 30. *)
Definition scenario_as_specified (self : LinearHuman) : Prop :=
  waypts self = [(0, 0); (10, 0); (0, 0)] /\
  Forall2 Qeq (waypt_times self) [0; 20; 40; 60] /\
  (exists p, position_at self 10 = Ok (Some p) /\ peq p (5, 0)) /\
  (exists p, position_at self 30 = Ok (Some p) /\ peq p (5, 0)) /\
  (exists p, position_at self 60 = Ok (Some p) /\ peq p (0, 0)).

(** The claim that every call stores the position it computes in
    [prev_pose]. *)
Definition prev_pose_tracks_every_call : Prop :=
  forall cfg self t self',
    reachable cfg self -> 0 <= t ->
    update_pose self t = Ok self' ->
    exists p, pose_xy self' = Some p /\ peq (prev_pose self') p.

(** The claim that a construction with no goal fails. *)
Definition construction_rejects_empty_goals : Prop :=
  forall cfg, p_real_goals cfg = [] -> exists e, load_parameters cfg = Raise e.

(** ** Markers *)

(** The shape and action constants of [visualization_msgs/Marker] the file
    uses. *)
Inductive marker_type : Type :=
| SPHERE
| CUBE.

Inductive marker_action : Type :=
| ADD.

(** The fields of a [Marker] the file assigns, and its [id].  The time stamp
    of the header is left out. *)
Record Marker : Type := mkMarker {
  frame_id : string;
  m_type : marker_type;
  m_action : marker_action;
  orientation_w : Q;
  position_x : Q;
  position_y : Q;
  position_z : Q;
  scale_x : Q;
  scale_y : Q;
  scale_z : Q;
  color_a : Q;
  color_r : Q;
  color_g : Q;
  color_b : Q;
  m_id : Z
}.

(** The attributes of the object [load_parameters] reads for display:
    [self.color] and [self.human_height]. *)
Record Appearance : Type := mkAppearance {
  color : list Q;
  human_height : Q
}.

(** [state_to_marker]; [fresh_id] is the [id] of a newly made [Marker()]. *)
Definition state_to_marker (fresh_id : Z) (self : LinearHuman) (xy : point)
  (col : list Q) : result Marker :=
  r <- py_index col 0 ;;
  g <- py_index col 1 ;;
  b <- py_index col 2 ;;
  Ok {| frame_id := "/world";
        m_type := SPHERE;
        m_action := ADD;
        orientation_w := 1;
        position_x := fst xy;
        position_y := snd xy;
        position_z := 0;
        scale_x := res_x self;
        scale_y := res_y self;
        scale_z := res_x self;
        color_a := 1;
        color_r := r;
        color_g := g;
        color_b := b;
        m_id := fresh_id |}.

(** [pose_to_marker] *)
Definition pose_to_marker (fresh_id : Z) (self : LinearHuman)
  (app : Appearance) (col : list Q) : result Marker :=
  let sz := human_height app in
  r <- py_index col 0 ;;
  g <- py_index col 1 ;;
  b <- py_index col 2 ;;
  let pos :=
    match human_pose self with
    | Some hp => (pos_x hp, pos_y hp, sz / 2)
    | None => (0, 0, 2)
    end in
  Ok {| frame_id := "/world";
        m_type := CUBE;
        m_action := ADD;
        orientation_w := 1;
        position_x := fst (fst pos);
        position_y := snd (fst pos);
        position_z := snd pos;
        scale_x := res_x self;
        scale_y := res_y self;
        scale_z := sz;
        color_a := 1;
        color_r := r;
        color_g := g;
        color_b := b;
        m_id := fresh_id |}.

(** [m.id = id] *)
Definition set_id (m : Marker) (id : Z) : Marker :=
  {| frame_id := frame_id m;
     m_type := m_type m;
     m_action := m_action m;
     orientation_w := orientation_w m;
     position_x := position_x m;
     position_y := position_y m;
     position_z := position_z m;
     scale_x := scale_x m;
     scale_y := scale_y m;
     scale_z := scale_z m;
     color_a := color_a m;
     color_r := color_r m;
     color_g := color_g m;
     color_b := color_b m;
     m_id := id |}.

(** The first loop of [__init__]: one marker per goal, appended in order. *)
Fixpoint make_goal_markers (fresh_id : Z) (self : LinearHuman)
  (col : list Q) (goals : list point) : result (list Marker) :=
  match goals with
  | [] => Ok []
  | g :: goals' =>
      marker <- state_to_marker fresh_id self g col ;;
      rest <- make_goal_markers fresh_id self col goals' ;;
      Ok (marker :: rest)
  end.

(** The second loop of [__init__]: the markers are numbered from [id]. *)
Fixpoint renumber (id : Z) (markers : list Marker) : list Marker :=
  match markers with
  | [] => []
  | m :: markers' => set_id m id :: renumber (id + 1) markers'
  end.

(** The marker array of [__init__]. *)
Definition goal_marker_array (fresh_id : Z) (self : LinearHuman)
  (app : Appearance) : result (list Marker) :=
  markers <- make_goal_markers fresh_id self (color app) (real_goals self) ;;
  Ok (renumber 0 markers).

(** What one tick publishes: the pose, its marker and the goal markers. *)
Record Published : Type := mkPublished {
  pub_state : option Pose;
  pub_marker : Marker;
  pub_goals : list Marker
}.

(** The tick loop of [__init__] with its three publications. *)
Fixpoint publish_loop (fresh_id : Z) (app : Appearance)
  (marker_array : list Marker) (self : LinearHuman) (ts : list Q)
  : result (LinearHuman * list Published) :=
  match ts with
  | [] => Ok (self, [])
  | t :: ts' =>
      self1 <- update_pose self t ;;
      mk <- pose_to_marker fresh_id self1 app (color app) ;;
      r <- publish_loop fresh_id app marker_array self1 ts' ;;
      Ok (fst r,
          {| pub_state := human_pose self1;
             pub_marker := mk;
             pub_goals := marker_array |} :: snd r)
  end.

(** [__init__], publications included. *)
Definition init_publishing (fresh_id : Z) (cfg : Params) (app : Appearance)
  (ts : list Q) : result (LinearHuman * list Published) :=
  self <- load_parameters cfg ;;
  marker_array <- goal_marker_array fresh_id self app ;;
  publish_loop fresh_id app marker_array self ts.

(** ** Notions used in the further statements *)

(** The fields of a goal marker that do not depend on the goal. *)
Definition goal_marker_shape (self : LinearHuman) (col : list Q)
  (mk : Marker) : Prop :=
  frame_id mk = "/world"%string /\
  m_type mk = SPHERE /\ m_action mk = ADD /\
  position_z mk = 0 /\
  scale_x mk = res_x self /\ scale_y mk = res_y self /\
  scale_z mk = res_x self /\
  color_a mk = 1 /\
  py_index col 0 = Ok (color_r mk) /\
  py_index col 1 = Ok (color_g mk) /\
  py_index col 2 = Ok (color_b mk).

(** What a tick publishes on goal array [arr], in a run started from [self]:
    the array, and a cube standing at the published pose. *)
Definition published_tick (self : LinearHuman) (app : Appearance)
  (arr : list Marker) (pb : Published) : Prop :=
  pub_goals pb = arr /\
  exists p,
    pub_state pb = Some {| pos_x := fst p; pos_y := snd p; pos_z := 0 |} /\
    m_type (pub_marker pb) = CUBE /\
    position_x (pub_marker pb) = fst p /\
    position_y (pub_marker pb) = snd p /\
    position_z (pub_marker pb) = human_height app / 2 /\
    scale_x (pub_marker pb) = res_x self /\
    scale_y (pub_marker pb) = res_y self /\
    scale_z (pub_marker pb) = human_height app.

(** A point inside the rectangle with corners [lo] and [hi]. *)
Definition in_box (lo hi p : point) : Prop :=
  fst lo <= fst p /\ fst p <= fst hi /\ snd lo <= snd p /\ snd p <= snd hi.

(** The last of the times [ts] that lies before [T], if any. *)
Definition last_before (T : Q) (ts : list Q) : option Q :=
  fold_left (fun acc t => if Qle_bool T t then acc else Some t) ts None.

(** A configuration with two goals, for the examples. *)
Definition cfg_two_goals : Params :=
  {| p_lower := (-2, -3);
     p_upper := (6, 5);
     p_real_start := (0, 0);
     p_real_goals := [(4, 2); (1, 3)];
     p_sim_height := 5;
     p_sim_width := 9 |}.

(** A frame of zero width, for the example. *)
Definition cfg_zero_width : Params :=
  {| p_lower := (2, 0);
     p_upper := (2, 9);
     p_real_start := (2, 0);
     p_real_goals := [(2, 5)];
     p_sim_height := 10;
     p_sim_width := 10 |}.

Definition red_person : Appearance :=
  {| color := [1; 0; 0]; human_height := 17 # 10 |}.

(** The round trip as the specification words it, for every point of every
    real frame the construction accepts. *)
Definition round_trip_on_every_frame : Prop :=
  forall (m : round_mode) (cfg : Params) (self : LinearHuman) (p : point),
    reachable cfg self ->
    in_box (p_lower cfg) (p_upper cfg) p ->
    exists c,
      real_to_sim_coord m self p = Ok c /\
      Qabs (fst (sim_to_real_coord self c) - fst p)
        <= Qabs (res_x self) * (1 # 2) /\
      Qabs (snd (sim_to_real_coord self c) - snd p)
        <= Qabs (res_y self) * (1 # 2).

(** * Properties *)

(** ** The primitives *)

Lemma py_div_ok (a b : Q) : ~ b == 0 -> py_div a b = Ok (a / b).
Proof.
  intro Hb. unfold py_div.
  destruct (Qeq_bool b 0) eqn:E; [|reflexivity].
  apply Qeq_bool_iff in E. contradiction.
Qed.

Lemma py_div_zero (a b : Q) : b == 0 -> py_div a b = Raise ZeroDivisionError.
Proof.
  intro Hb. unfold py_div.
  apply Qeq_bool_iff in Hb. now rewrite Hb.
Qed.

Lemma py_int_floor (x : Q) : 0 <= x -> py_int x = Qfloor x.
Proof.
  destruct x as [n d]. unfold Qle, py_int. simpl. intro H.
  apply Z.quot_div_nonneg; lia.
Qed.

Lemma py_int_inject_Z (z : Z) : py_int (inject_Z z) = z.
Proof. unfold py_int. simpl. apply Z.quot_1_r. Qed.

Lemma py_index_nth {A : Type} (l : list A) (i : nat) (a : A) :
  nth_error l i = Some a -> py_index l (Z.of_nat i) = Ok a.
Proof.
  intro H. unfold py_index.
  assert (Hlt : (i < length l)%nat) by (apply nth_error_Some; congruence).
  destruct (Z.ltb_spec (Z.of_nat i) 0); [lia|].
  destruct (Z.leb_spec 0 (Z.of_nat i)); [|lia].
  destruct (Z.ltb_spec (Z.of_nat i) (Z.of_nat (length l))); [|lia].
  simpl. now rewrite Nat2Z.id, H.
Qed.

Lemma nth_error_py_range (n i : nat) :
  (i < n)%nat -> nth_error (py_range n) i = Some (Z.of_nat i).
Proof.
  intro H. unfold py_range.
  rewrite nth_error_map, nth_error_seq.
  destruct (Nat.ltb_spec i n); [reflexivity | lia].
Qed.

Lemma length_py_range (n : nat) : length (py_range n) = n.
Proof. unfold py_range. now rewrite length_map, length_seq. Qed.

(** ** The schedule *)

Lemma length_waypts (self : LinearHuman) :
  length (waypts self) = (length (real_goals self) + 2)%nat.
Proof. unfold waypts. simpl. rewrite length_app. simpl. lia. Qed.

Lemma waypts_first (self : LinearHuman) :
  nth_error (waypts self) 0 = Some (real_start self).
Proof. reflexivity. Qed.

Lemma waypts_last (self : LinearHuman) :
  nth_error (waypts self) (length (real_goals self) + 1) =
  Some (real_start self).
Proof.
  unfold waypts. simpl. rewrite Nat.add_1_r. simpl.
  rewrite nth_error_app2 by lia. now rewrite Nat.sub_diag.
Qed.

Lemma waypts_defined (self : LinearHuman) (i : nat) :
  (i <= length (real_goals self) + 1)%nat ->
  exists p, nth_error (waypts self) i = Some p.
Proof.
  intro H. destruct (nth_error (waypts self) i) eqn:E; [eauto|].
  apply nth_error_None in E. rewrite length_waypts in E. lia.
Qed.

Lemma set_pose_scheduled (T : Q) (self : LinearHuman) hp pp :
  scheduled T self -> scheduled T (set_pose self hp pp).
Proof. unfold scheduled. simpl. tauto. Qed.

Lemma update_pose_frame (self self' : LinearHuman) (t : Q) :
  update_pose self t = Ok self' ->
  exists target_pos pp, self' = set_pose self (pose_of target_pos) pp.
Proof.
  unfold update_pose.
  destruct (Qle_bool (final_T self) t).
  - intro H. inversion H. eauto.
  - destruct (py_div t (step_time self)) as [q|]; simpl; [|discriminate].
    destruct (py_index _ (py_int q)) as [prev|]; simpl; [|discriminate].
    destruct (py_index _ (py_int q + 1)) as [next|]; simpl; [|discriminate].
    destruct (py_index (waypt_times self) (py_int q)) as [ti|]; simpl;
      [|discriminate].
    destruct (py_index (waypt_times self) (py_int q + 1)) as [tf|]; simpl;
      [|discriminate].
    destruct (py_div (t - ti) (tf - ti)) as [f|]; simpl; [|discriminate].
    intro H. inversion H. eauto.
Qed.

Lemma update_pose_scheduled (T : Q) (self self' : LinearHuman) (t : Q) :
  scheduled T self -> update_pose self t = Ok self' -> scheduled T self'.
Proof.
  intros Hs Hu. apply update_pose_frame in Hu as (tp & pp & ->).
  now apply set_pose_scheduled.
Qed.

Lemma goals_succ_pos (n : nat) : 0 < inject_Z (Z.of_nat n + 1).
Proof. change 0 with (inject_Z 0). rewrite <- Zlt_Qlt. lia. Qed.

Lemma load_parameters_with_inv (T : Q) (cfg : Params) (self : LinearHuman) :
  load_parameters_with T cfg = Ok self ->
  scheduled T self /\
  real_start self = p_real_start cfg /\
  real_goals self = p_real_goals cfg /\
  prev_pose self = p_real_start cfg /\
  human_pose self = None.
Proof.
  unfold load_parameters_with.
  rewrite py_div_ok
    by (apply Qnot_eq_sym, Qlt_not_eq, goals_succ_pos).
  simpl.
  destruct (py_div _ (inject_Z (p_sim_width cfg - 1))) as [rx|]; simpl;
    [|discriminate].
  destruct (py_div _ (inject_Z (p_sim_height cfg - 1))) as [ry|]; simpl;
    [|discriminate].
  intro H. inversion H. unfold scheduled. simpl. tauto.
Qed.

Lemma inject_Z_pred_zero (z : Z) : inject_Z (z - 1) == 0 <-> z = 1%Z.
Proof.
  change 0 with (inject_Z 0). rewrite inject_Z_injective. lia.
Qed.

(** The construction fails exactly on a grid dimension of 1, the width
    being divided by first. *)
Lemma load_parameters_with_cases (T : Q) (cfg : Params) :
  load_parameters_with T cfg =
  if (p_sim_width cfg =? 1)%Z then Raise ZeroDivisionError
  else if (p_sim_height cfg =? 1)%Z then Raise ZeroDivisionError
  else Ok (loaded T cfg).
Proof.
  unfold load_parameters_with.
  rewrite py_div_ok
    by (apply Qnot_eq_sym, Qlt_not_eq, goals_succ_pos).
  cbn [bind].
  destruct (Z.eqb_spec (p_sim_width cfg) 1) as [Hw | Hw].
  { rewrite py_div_zero by now apply inject_Z_pred_zero. reflexivity. }
  rewrite py_div_ok by now rewrite inject_Z_pred_zero.
  cbn [bind].
  destruct (Z.eqb_spec (p_sim_height cfg) 1) as [Hh | Hh].
  { rewrite py_div_zero by now apply inject_Z_pred_zero. reflexivity. }
  rewrite py_div_ok by now rewrite inject_Z_pred_zero.
  reflexivity.
Qed.

Lemma reachable_scheduled (cfg : Params) (self : LinearHuman) :
  reachable cfg self ->
  scheduled 60 self /\
  real_start self = p_real_start cfg /\
  real_goals self = p_real_goals cfg.
Proof.
  induction 1 as [self H | self t self' _ IH Hu].
  - apply load_parameters_with_inv in H. tauto.
  - destruct IH as (Hs & Hst & Hg).
    apply update_pose_frame in Hu as (tp & pp & ->).
    split; [now apply set_pose_scheduled | now simpl].
Qed.

Section Schedule.

Variable T : Q.
Hypothesis T_pos : 0 < T.
Variable self : LinearHuman.
Hypothesis Hsched : scheduled T self.

Lemma step_time_pos : 0 < step_time self.
Proof.
  destruct Hsched as (_ & -> & _).
  apply Qlt_shift_div_l; [apply goals_succ_pos | lra].
Qed.

Lemma step_time_total :
  inject_Z (Z.of_nat (length (real_goals self)) + 1) * step_time self == T.
Proof.
  destruct Hsched as (_ & -> & _).
  pose proof (goals_succ_pos (length (real_goals self))). field. lra.
Qed.

Lemma waypt_times_nth (i : nat) :
  (i <= length (real_goals self) + 1)%nat ->
  nth_error (waypt_times self) i =
  Some (inject_Z (Z.of_nat i) * step_time self).
Proof.
  intro H. destruct Hsched as (_ & _ & ->).
  rewrite nth_error_map, nth_error_py_range by lia. reflexivity.
Qed.

Lemma length_waypt_times :
  length (waypt_times self) = (length (real_goals self) + 2)%nat.
Proof.
  destruct Hsched as (_ & _ & ->).
  now rewrite length_map, length_py_range.
Qed.

(** The segment index of a time inside the schedule. *)
Lemma segment_index_bounds (t : Q) :
  0 <= t -> t < T ->
  (0 <= Qfloor (t / step_time self) <= Z.of_nat (length (real_goals self)))%Z /\
  py_int (t / step_time self) = Qfloor (t / step_time self).
Proof.
  intros H0 H1.
  pose proof step_time_pos as Hp.
  pose proof step_time_total as Ht.
  assert (Hq0 : 0 <= t / step_time self).
  { apply Qle_shift_div_l; [assumption | lra]. }
  assert (Hq1 : t / step_time self <
                inject_Z (Z.of_nat (length (real_goals self)) + 1)).
  { apply Qlt_shift_div_r; [assumption | lra]. }
  split; [split|].
  - change 0%Z with (Qfloor 0). now apply Qfloor_resp_le.
  - pose proof (Qfloor_le (t / step_time self)) as Hf.
    assert (Hlt : inject_Z (Qfloor (t / step_time self)) <
                  inject_Z (Z.of_nat (length (real_goals self)) + 1)) by lra.
    rewrite <- Zlt_Qlt in Hlt. lia.
  - now apply py_int_floor.
Qed.

End Schedule.

(** ** The interpolation branch *)

Section Interpolation.

Variable T : Q.
Hypothesis T_pos : 0 < T.
Variable self : LinearHuman.
Hypothesis Hsched : scheduled T self.

Lemma update_pose_home (t : Q) :
  T <= t ->
  update_pose self t =
  Ok (set_pose self (pose_of (real_start self)) (prev_pose self)).
Proof.
  intro H. unfold update_pose.
  destruct Hsched as (-> & _).
  apply Qle_bool_iff in H. now rewrite H.
Qed.

Lemma update_pose_segment (t : Q) (k : nat) (p0 p1 : point) :
  0 <= t -> t < T ->
  Qfloor (t / step_time self) = Z.of_nat k ->
  nth_error (waypts self) k = Some p0 ->
  nth_error (waypts self) (k + 1) = Some p1 ->
  let t0 := inject_Z (Z.of_nat k) * step_time self in
  let t1 := inject_Z (Z.of_nat (k + 1)) * step_time self in
  let target_pos := interpolate p0 p1 t0 t1 t in
  nth_error (waypt_times self) k = Some t0 /\
  nth_error (waypt_times self) (k + 1) = Some t1 /\
  t1 - t0 == step_time self /\
  update_pose self t = Ok (set_pose self (pose_of target_pos) target_pos).
Proof.
  intros H0 H1 Hk Hp0 Hp1 t0 t1 target_pos.
  pose proof (step_time_pos T T_pos self Hsched) as Hp.
  destruct (segment_index_bounds T T_pos self Hsched t H0 H1)
    as ((_ & Hkn) & Hint).
  rewrite Hk in Hkn, Hint.
  assert (Ht0 : nth_error (waypt_times self) k = Some t0)
    by (apply (waypt_times_nth T); [assumption | lia]).
  assert (Ht1 : nth_error (waypt_times self) (k + 1) = Some t1)
    by (apply (waypt_times_nth T); [assumption | lia]).
  assert (Hd : t1 - t0 == step_time self).
  { unfold t1, t0. rewrite Nat2Z.inj_add, inject_Z_plus. simpl. ring. }
  repeat split; try assumption.
  unfold update_pose. fold (waypts self).
  destruct (Qle_bool (final_T self) t) eqn:E.
  { apply Qle_bool_iff in E. destruct Hsched as (HT & _).
    rewrite HT in E. lra. }
  rewrite py_div_ok by lra. cbn [bind]. rewrite Hint.
  replace (Z.of_nat k + 1)%Z with (Z.of_nat (k + 1)) by lia.
  rewrite (py_index_nth _ _ _ Hp0), (py_index_nth _ _ _ Hp1).
  rewrite (py_index_nth _ _ _ Ht0), (py_index_nth _ _ _ Ht1).
  cbn [bind]. rewrite py_div_ok by lra. reflexivity.
Qed.

(** Inside the schedule the call returns. *)
Lemma update_pose_total (t : Q) :
  0 <= t -> exists self', update_pose self t = Ok self'.
Proof.
  intro H0. destruct (Qlt_le_dec t T) as [H1 | H1].
  - destruct (segment_index_bounds T T_pos self Hsched t H0 H1)
      as ((Hk0 & Hkn) & _).
    set (k := Z.to_nat (Qfloor (t / step_time self))).
    assert (Hk : Qfloor (t / step_time self) = Z.of_nat k)
      by (unfold k; lia).
    destruct (waypts_defined self k) as (p0 & Hp0); [lia|].
    destruct (waypts_defined self (k + 1)) as (p1 & Hp1); [lia|].
    destruct (update_pose_segment t k p0 p1 H0 H1 Hk Hp0 Hp1)
      as (_ & _ & _ & Hu).
    eauto.
  - rewrite update_pose_home by assumption. eauto.
Qed.

End Interpolation.

(** ** Position at the ends of the schedule *)

Lemma position_at_home (T : Q) (self : LinearHuman) (t : Q) :
  scheduled T self -> T <= t ->
  position_at self t = Ok (Some (real_start self)).
Proof.
  intros Hs Ht. unfold position_at.
  rewrite (update_pose_home T self Hs t Ht).
  destruct (real_start self). reflexivity.
Qed.

Lemma position_at_segment (T : Q) (self : LinearHuman) (t : Q) (k : nat)
  (p0 p1 : point) :
  0 < T -> scheduled T self -> 0 <= t -> t < T ->
  Qfloor (t / step_time self) = Z.of_nat k ->
  nth_error (waypts self) k = Some p0 ->
  nth_error (waypts self) (k + 1) = Some p1 ->
  position_at self t =
  Ok (Some (interpolate p0 p1 (inject_Z (Z.of_nat k) * step_time self)
              (inject_Z (Z.of_nat (k + 1)) * step_time self) t)).
Proof.
  intros HT Hs H0 H1 Hk Hp0 Hp1. unfold position_at.
  destruct (update_pose_segment T HT self Hs t k p0 p1 H0 H1 Hk Hp0 Hp1)
    as (_ & _ & _ & ->).
  reflexivity.
Qed.

Lemma interpolate_at_t0 (p0 p1 : point) (t0 t1 t : Q) :
  t == t0 -> peq (interpolate p0 p1 t0 t1 t) p0.
Proof.
  intro H. unfold interpolate, peq, np_add, np_scale, np_sub. simpl.
  assert (Hz : (t - t0) / (t1 - t0) == 0).
  { unfold Qdiv. setoid_replace (t - t0) with 0 by lra. ring. }
  rewrite Hz. split; ring.
Qed.

(** C1: for every state of a schedule ([final_T] = 60), [position_at 0] is
    the start waypoint, and [position_at t] returns the start waypoint itself
    for every [t >= final_T]. *)
Theorem position_at_zero_and_beyond (cfg : Params) (self : LinearHuman) :
  reachable cfg self ->
  final_T self = 60 /\
  (exists p, position_at self 0 = Ok (Some p) /\ peq p (p_real_start cfg)) /\
  (forall t, 60 <= t -> position_at self t = Ok (Some (p_real_start cfg))).
Proof.
  intro Hr. destruct (reachable_scheduled cfg self Hr) as (Hs & Hst & Hg).
  assert (HT : 0 < 60) by lra.
  split; [apply Hs | split].
  - destruct (waypts_defined self 1) as (p1 & Hp1); [lia|].
    eexists. split.
    + apply (position_at_segment 60 self 0 0 (real_start self) p1);
        try assumption; try lra.
      * unfold Qdiv. rewrite Qmult_0_l. reflexivity.
      * apply waypts_first.
    + rewrite <- Hst. apply interpolate_at_t0. simpl. ring.
  - intros t Ht. rewrite <- Hst. now apply (position_at_home 60).
Qed.

Lemma position_at_zero_and_beyond_witness :
  exists self,
    load_parameters cfg_one_goal = Ok self /\
    (exists p, position_at self 0 = Ok (Some p) /\ peq p (0, 0)) /\
    position_at self 75 = Ok (Some (0, 0)).
Proof.
  eexists. split; [reflexivity|].
  destruct (position_at_zero_and_beyond cfg_one_goal _
              (reach_load cfg_one_goal _ eq_refl)) as (_ & H0 & Hh).
  split; [exact H0|]. apply Hh. unfold Qle. simpl. lia.
Defined.

(** ** Position at the boundary timestamps *)

(** C2: with [n] goals, boundary timestamp [i] is [i * (60 / (n+1))] and is
    entry [i] of the boundary table; at it (and at any time equal to it)
    [position_at] is waypoint [i] of [start, goal_1, ..., goal_n, start],
    for every [0 <= i <= n+1]. *)
Theorem position_at_boundary (cfg : Params) (self : LinearHuman) (i : nat) :
  reachable cfg self ->
  (i <= length (p_real_goals cfg) + 1)%nat ->
  let n := length (p_real_goals cfg) in
  let t_i := inject_Z (Z.of_nat i) * (60 / inject_Z (Z.of_nat n + 1)) in
  exists w,
    nth_error ([p_real_start cfg] ++ p_real_goals cfg ++ [p_real_start cfg]) i
      = Some w /\
    nth_error (waypt_times self) i = Some t_i /\
    forall t, t == t_i ->
      exists p, position_at self t = Ok (Some p) /\ peq p w.
Proof.
  intros Hr Hi n t_i.
  destruct (reachable_scheduled cfg self Hr) as (Hs & Hst & Hg).
  assert (HT : 0 < 60) by lra.
  pose proof (step_time_pos 60 HT self Hs) as Hp.
  pose proof (step_time_total 60 self Hs) as Htot.
  assert (Hstep : step_time self = 60 / inject_Z (Z.of_nat n + 1)).
  { destruct Hs as (_ & -> & _). unfold n. now rewrite Hg. }
  assert (Hw : waypts self =
               [p_real_start cfg] ++ p_real_goals cfg ++ [p_real_start cfg]).
  { unfold waypts. now rewrite Hst, Hg. }
  rewrite Hg in Htot. fold n in Htot.
  destruct (waypts_defined self i) as (w & Hwi); [rewrite Hg; exact Hi|].
  exists w. rewrite <- Hw. split; [exact Hwi | split].
  { unfold t_i. rewrite <- Hstep.
    apply (waypt_times_nth 60 self Hs). rewrite Hg. exact Hi. }
  intros t Ht. unfold t_i in Ht. rewrite <- Hstep in Ht.
  destruct (Nat.eq_dec i (n + 1)) as [-> | Hne].
  - (* the last boundary: the schedule is over *)
    exists (real_start self). split.
    + apply (position_at_home 60); [assumption|].
      rewrite Ht. replace (Z.of_nat (n + 1)) with (Z.of_nat n + 1)%Z by lia.
      lra.
    + unfold n in Hwi. rewrite <- Hg, waypts_last in Hwi.
      injection Hwi as <-. split; reflexivity.
  - (* a boundary that opens segment [i] *)
    assert (Hin : (i <= n)%nat) by (unfold n in *; lia).
    destruct (waypts_defined self (i + 1)) as (p1 & Hp1);
      [rewrite Hg; fold n; lia|].
    assert (Hlt : inject_Z (Z.of_nat i) < inject_Z (Z.of_nat n + 1))
      by (rewrite <- Zlt_Qlt; lia).
    assert (Hge : 0 <= inject_Z (Z.of_nat i))
      by (change 0 with (inject_Z 0); rewrite <- Zle_Qle; lia).
    eexists. split.
    + apply (position_at_segment 60 self t i w p1); try assumption.
      * rewrite Ht. apply Qmult_le_0_compat; lra.
      * rewrite Ht, <- Htot. apply Qmult_lt_compat_r; assumption.
      * rewrite <- (Qfloor_Z (Z.of_nat i)). apply Qfloor_comp.
        rewrite Ht. field. lra.
    + apply interpolate_at_t0. exact Ht.
Qed.

Lemma position_at_boundary_witness :
  exists self,
    load_parameters cfg_one_goal = Ok self /\
    nth_error (waypt_times self) 1 = Some (1 * (60 / inject_Z (1 + 1))) /\
    exists p, position_at self 30 = Ok (Some p) /\ peq p (10, 0).
Proof.
  eexists. split; [reflexivity|].
  destruct (position_at_boundary cfg_one_goal _ 1
              (reach_load cfg_one_goal _ eq_refl)) as (w & Hw & Ht & Hp).
  - simpl. lia.
  - simpl in Hw. injection Hw as <-. split; [exact Ht|].
    apply Hp. vm_compute. reflexivity.
Defined.

(** ** Inside a segment *)

(** C3: for [0 <= t < 60] the active segment is
    [k = floor (t / (60 / (n+1)))]; with [p0], [p1] waypoints [k], [k+1] and
    [t0], [t1] boundary entries [k], [k+1], [position_at t] is, on each
    axis, [p0 + f * (p1 - p0)] where [f = (t - t0) / (t1 - t0)]. *)
Theorem position_at_interpolates (cfg : Params) (self : LinearHuman) (t : Q) :
  reachable cfg self ->
  0 <= t -> t < 60 ->
  let n := length (p_real_goals cfg) in
  let segment_length := 60 / inject_Z (Z.of_nat n + 1) in
  let k := Z.to_nat (Qfloor (t / segment_length)) in
  exists p0 p1 t0 t1 p,
    Qfloor (t / segment_length) = Z.of_nat k /\
    nth_error ([p_real_start cfg] ++ p_real_goals cfg ++ [p_real_start cfg]) k
      = Some p0 /\
    nth_error ([p_real_start cfg] ++ p_real_goals cfg ++ [p_real_start cfg])
      (k + 1) = Some p1 /\
    nth_error (waypt_times self) k = Some t0 /\
    nth_error (waypt_times self) (k + 1) = Some t1 /\
    t0 <= t /\ t < t1 /\
    position_at self t = Ok (Some p) /\
    let f := (t - t0) / (t1 - t0) in
    fst p == fst p0 + f * (fst p1 - fst p0) /\
    snd p == snd p0 + f * (snd p1 - snd p0).
Proof.
  intros Hr H0 H1 n segment_length k.
  destruct (reachable_scheduled cfg self Hr) as (Hs & Hst & Hg).
  assert (HT : 0 < 60) by lra.
  pose proof (step_time_pos 60 HT self Hs) as Hp.
  assert (Hstep : step_time self = segment_length).
  { destruct Hs as (_ & -> & _). unfold segment_length, n. now rewrite Hg. }
  assert (Hw : waypts self =
               [p_real_start cfg] ++ p_real_goals cfg ++ [p_real_start cfg]).
  { unfold waypts. now rewrite Hst, Hg. }
  destruct (segment_index_bounds 60 HT self Hs t H0 H1) as ((Hk0 & Hkn) & _).
  rewrite Hstep in Hk0, Hkn.
  assert (Hk : Qfloor (t / segment_length) = Z.of_nat k) by (unfold k; lia).
  destruct (waypts_defined self k) as (p0 & Hp0); [lia|].
  destruct (waypts_defined self (k + 1)) as (p1 & Hp1); [lia|].
  rewrite <- Hstep in Hk.
  destruct (update_pose_segment 60 HT self Hs t k p0 p1 H0 H1 Hk Hp0 Hp1)
    as (Ht0 & Ht1 & Hd & _).
  pose proof (position_at_segment 60 self t k p0 p1 HT Hs H0 H1 Hk Hp0 Hp1)
    as Hpos.
  pose proof (Qfloor_le (t / step_time self)) as Hfl.
  pose proof (Qlt_floor (t / step_time self)) as Hfu.
  rewrite Hk in Hfl, Hfu.
  assert (Hts : t / step_time self * step_time self == t) by (field; lra).
  assert (Hl : inject_Z (Z.of_nat k) * step_time self <= t).
  { rewrite <- Hts. apply Qmult_le_compat_r; lra. }
  assert (Hu : t < inject_Z (Z.of_nat (k + 1)) * step_time self).
  { replace (Z.of_nat (k + 1)) with (Z.of_nat k + 1)%Z by lia.
    rewrite <- Hts at 1. apply Qmult_lt_compat_r; assumption. }
  rewrite <- Hw.
  rewrite Hstep in Hk.
  exists p0, p1, (inject_Z (Z.of_nat k) * step_time self),
    (inject_Z (Z.of_nat (k + 1)) * step_time self).
  eexists.
  split; [exact Hk | split; [exact Hp0 | split; [exact Hp1|]]].
  split; [exact Ht0 | split; [exact Ht1|]].
  split; [exact Hl | split; [exact Hu | split; [exact Hpos|]]].
  unfold interpolate, np_add, np_scale, np_sub. simpl. split; ring.
Qed.

Lemma position_at_interpolates_witness :
  exists self p,
    load_parameters cfg_one_goal = Ok self /\
    position_at self 10 = Ok (Some p) /\
    peq p (10 # 3, 0).
Proof.
  eexists.
  destruct (position_at_interpolates cfg_one_goal _ 10
              (reach_load cfg_one_goal _ eq_refl))
    as (p0 & p1 & t0 & t1 & p & _ & Hp0 & Hp1 & Ht0 & Ht1 & _ & _ & Hpos
        & Hx & Hy).
  - unfold Qle. simpl. lia.
  - unfold Qlt. simpl. lia.
  - exists p. split; [reflexivity | split; [exact Hpos|]].
    vm_compute in Hp0, Hp1, Ht0, Ht1.
    injection Hp0 as <-. injection Hp1 as <-.
    injection Ht0 as <-. injection Ht1 as <-.
    split.
    + rewrite Hx. vm_compute. reflexivity.
    + rewrite Hy. vm_compute. reflexivity.
Defined.

(** ** Safety of the interpolation branch *)

(** C10: for [0 <= t < 60] the index [update_pose] computes is
    [floor (t / step_time)] and is at most [n]; the four accesses at [k] and
    [k+1] succeed, the divisor [t1 - t0] is [step_time > 0], and the call
    returns. *)
Theorem interpolation_branch_safe (cfg : Params) (self : LinearHuman) (t : Q) :
  reachable cfg self ->
  0 <= t -> t < 60 ->
  let n := length (p_real_goals cfg) in
  let waypts := [real_start self] ++ real_goals self ++ [real_start self] in
  exists q,
    py_div t (step_time self) = Ok q /\
    let k := py_int q in
    k = Qfloor (t / step_time self) /\
    (0 <= k <= Z.of_nat n)%Z /\
    length waypts = (n + 2)%nat /\
    length (waypt_times self) = (n + 2)%nat /\
    exists p0 p1 t0 t1 f self',
      py_index waypts k = Ok p0 /\
      py_index waypts (k + 1) = Ok p1 /\
      py_index (waypt_times self) k = Ok t0 /\
      py_index (waypt_times self) (k + 1) = Ok t1 /\
      t1 - t0 == step_time self /\
      0 < step_time self /\
      py_div (t - t0) (t1 - t0) = Ok f /\
      update_pose self t = Ok self'.
Proof.
  intros Hr H0 H1 n wp.
  destruct (reachable_scheduled cfg self Hr) as (Hs & Hst & Hg).
  assert (HT : 0 < 60) by lra.
  pose proof (step_time_pos 60 HT self Hs) as Hp.
  destruct (segment_index_bounds 60 HT self Hs t H0 H1) as ((Hk0 & Hkn) & Hint).
  exists (t / step_time self).
  split; [apply py_div_ok; lra|]. cbv zeta.
  split; [exact Hint|]. rewrite Hint.
  split; [unfold n; rewrite <- Hg; lia|].
  split; [unfold n; rewrite <- Hg; apply length_waypts|].
  split; [unfold n; rewrite <- Hg; apply (length_waypt_times 60 self Hs)|].
  set (k := Z.to_nat (Qfloor (t / step_time self))).
  assert (Hk : Qfloor (t / step_time self) = Z.of_nat k) by (unfold k; lia).
  destruct (waypts_defined self k) as (p0 & Hp0); [lia|].
  destruct (waypts_defined self (k + 1)) as (p1 & Hp1); [lia|].
  destruct (update_pose_segment 60 HT self Hs t k p0 p1 H0 H1 Hk Hp0 Hp1)
    as (Ht0 & Ht1 & Hd & Hu).
  rewrite Hk.
  replace (Z.of_nat k + 1)%Z with (Z.of_nat (k + 1)) by lia.
  do 6 eexists.
  split; [exact (py_index_nth _ _ _ Hp0)|].
  split; [exact (py_index_nth _ _ _ Hp1)|].
  split; [exact (py_index_nth _ _ _ Ht0)|].
  split; [exact (py_index_nth _ _ _ Ht1)|].
  split; [exact Hd|]. split; [exact Hp|].
  split; [apply py_div_ok; lra | exact Hu].
Qed.

Lemma interpolation_branch_safe_witness :
  exists self self',
    load_parameters cfg_one_goal = Ok self /\
    update_pose self 59 = Ok self'.
Proof.
  eexists.
  destruct (interpolation_branch_safe cfg_one_goal _ 59
              (reach_load cfg_one_goal _ eq_refl))
    as (q & _ & _ & _ & _ & _ & p0 & p1 & t0 & t1 & f & self' & H).
  - unfold Qle. simpl. lia.
  - unfold Qlt. simpl. lia.
  - exists self'. split; [reflexivity | apply H].
Defined.

(** ** The time boundary table *)

(** C5: for [n] goals and [T > 0] the table built by the construction has
    [n + 2] entries, entry [i] is [i * (T / (n+1))], entries increase
    strictly, the first is [0] and the last is [T]. *)
Theorem waypt_times_table (T : Q) (cfg : Params) (self : LinearHuman) :
  0 < T ->
  load_parameters_with T cfg = Ok self ->
  let n := length (p_real_goals cfg) in
  let entry (i : nat) :=
    inject_Z (Z.of_nat i) * (T / inject_Z (Z.of_nat n + 1)) in
  length (waypt_times self) = (n + 2)%nat /\
  (forall i, (i <= n + 1)%nat ->
     nth_error (waypt_times self) i = Some (entry i)) /\
  (forall i j ti tj, (i < j)%nat ->
     nth_error (waypt_times self) i = Some ti ->
     nth_error (waypt_times self) j = Some tj -> ti < tj) /\
  (exists t0, nth_error (waypt_times self) 0 = Some t0 /\ t0 == 0) /\
  (exists tl, nth_error (waypt_times self) (n + 1) = Some tl /\ tl == T).
Proof.
  intros HT Hload n entry.
  destruct (load_parameters_with_inv T cfg self Hload) as (Hs & _ & Hg & _).
  pose proof (step_time_pos T HT self Hs) as Hp.
  pose proof (step_time_total T self Hs) as Htot.
  pose proof (length_waypt_times T self Hs) as Hlen.
  assert (Hstep : step_time self = T / inject_Z (Z.of_nat n + 1)).
  { destruct Hs as (_ & -> & _). unfold n. now rewrite Hg. }
  assert (Hnth : forall i, (i <= n + 1)%nat ->
                 nth_error (waypt_times self) i = Some (entry i)).
  { intros i Hi. unfold entry. rewrite <- Hstep.
    apply (waypt_times_nth T self Hs). rewrite Hg. exact Hi. }
  rewrite Hg in Hlen, Htot. fold n in Hlen, Htot.
  split; [exact Hlen | split; [exact Hnth | split; [|split]]].
  - intros i j ti tj Hij Hi Hj.
    assert (Hjn : (j < n + 2)%nat).
    { rewrite <- Hlen. apply nth_error_Some. congruence. }
    rewrite Hnth in Hi by lia. rewrite Hnth in Hj by lia.
    injection Hi as <-. injection Hj as <-.
    unfold entry. rewrite <- Hstep.
    apply Qmult_lt_compat_r; [exact Hp|].
    rewrite <- Zlt_Qlt. lia.
  - exists (entry 0%nat). split; [apply Hnth; lia|].
    unfold entry. simpl. ring.
  - exists (entry (n + 1)%nat). split; [apply Hnth; lia|].
    unfold entry. rewrite <- Hstep, <- Htot.
    replace (Z.of_nat (n + 1)) with (Z.of_nat n + 1)%Z by lia. reflexivity.
Qed.

Lemma waypt_times_table_witness :
  exists self,
    load_parameters_with 90 cfg_one_goal = Ok self /\
    length (waypt_times self) = 3%nat /\
    exists tl, nth_error (waypt_times self) 2 = Some tl /\ tl == 90.
Proof.
  assert (H90 : 0 < 90) by (unfold Qlt; simpl; lia).
  eexists. split; [reflexivity|].
  destruct (waypt_times_table 90 cfg_one_goal _ H90 eq_refl)
    as (Hlen & _ & _ & _ & Hl).
  split; [exact Hlen | exact Hl].
Defined.

(** ** The one-goal scenario *)

Ltac schedule_fields Hr :=
  destruct (reachable_scheduled _ _ Hr) as ((HfT & Hstep & Htimes) & Hst & Hg);
  match goal with
  | self : LinearHuman |- _ =>
      destruct self; cbn [final_T step_time waypt_times real_start real_goals]
        in HfT, Hstep, Htimes, Hst, Hg; subst
  end.

(** C4 (as amended): with start (0,0) and the single goal (10,0) the waypoints
    are [(0,0),(10,0),(0,0)] and the boundary table is [0,30,60];
    the position is (10/3,0) at 10, (5,0) at 15, (10,0) at 30, (5,0) at 45
    and (0,0) at 60. *)
Theorem one_goal_scenario (cfg : Params) (self : LinearHuman) :
  reachable cfg self ->
  p_real_start cfg = (0, 0) ->
  p_real_goals cfg = [(10, 0)] ->
  waypts self = [(0, 0); (10, 0); (0, 0)] /\
  Forall2 Qeq (waypt_times self) [0; 30; 60] /\
  (exists p, position_at self 10 = Ok (Some p) /\ peq p (10 # 3, 0)) /\
  (exists p, position_at self 15 = Ok (Some p) /\ peq p (5, 0)) /\
  (exists p, position_at self 30 = Ok (Some p) /\ peq p (10, 0)) /\
  (exists p, position_at self 45 = Ok (Some p) /\ peq p (5, 0)) /\
  (exists p, position_at self 60 = Ok (Some p) /\ peq p (0, 0)).
Proof.
  intros Hr Hs0 Hg0. schedule_fields Hr.
  rewrite Hs0, Hg0.
  split; [reflexivity|].
  split; [repeat constructor|].
  repeat split; eexists; (split; [vm_compute; reflexivity|]);
    split; vm_compute; reflexivity.
Qed.

Lemma one_goal_scenario_witness :
  exists self,
    load_parameters cfg_one_goal = Ok self /\
    Forall2 Qeq (waypt_times self) [0; 30; 60] /\
    exists p, position_at self 45 = Ok (Some p) /\ peq p (5, 0).
Proof.
  eexists. split; [reflexivity|].
  destruct (one_goal_scenario cfg_one_goal _
              (reach_load cfg_one_goal _ eq_refl) eq_refl eq_refl)
    as (_ & Ht & _ & _ & _ & H45 & _).
  split; [exact Ht | exact H45].
Defined.

(** The scenario as specified fails on the state the construction builds:
    the table has three entries, and the positions at 10 and 30 are (10/3,0)
    and (10,0). *)
Lemma one_goal_scenario_counterexample :
  exists self,
    load_parameters cfg_one_goal = Ok self /\
    ~ scenario_as_specified self /\
    ~ Forall2 Qeq (waypt_times self) [0; 20; 40; 60] /\
    ~ (exists p, position_at self 10 = Ok (Some p) /\ peq p (5, 0)) /\
    ~ (exists p, position_at self 30 = Ok (Some p) /\ peq p (5, 0)).
Proof.
  destruct (load_parameters cfg_one_goal) as [self|] eqn:E; [|discriminate E].
  exists self. split; [reflexivity|].
  vm_compute in E. injection E as <-.
  split; [|split; [|split]].
  - intros (_ & H & _). apply Forall2_length in H. discriminate H.
  - intro H. apply Forall2_length in H. discriminate H.
  - intros (p & Hp & Hx & _). vm_compute in Hp. injection Hp as <-.
    vm_compute in Hx. discriminate Hx.
  - intros (p & Hp & Hx & _). vm_compute in Hp. injection Hp as <-.
    vm_compute in Hx. discriminate Hx.
Qed.

(** ** Rounding *)

Lemma py_round_comp (m : round_mode) (x y : Q) :
  x == y -> py_round m x = py_round m y.
Proof.
  intro H. unfold py_round. destruct m.
  - assert (E1 : Qle_bool 0 x = Qle_bool 0 y)
      by (apply Qleb_comp; [reflexivity | exact H]).
    assert (E2 : Qfloor (x + (1 # 2)) = Qfloor (y + (1 # 2)))
      by (apply Qfloor_comp; now rewrite H).
    assert (E3 : Qfloor (- x + (1 # 2)) = Qfloor (- y + (1 # 2)))
      by (apply Qfloor_comp; now rewrite H).
    now rewrite E1, E2, E3.
  - cbv zeta.
    assert (E1 : Qfloor x = Qfloor y) by (apply Qfloor_comp; exact H).
    rewrite E1.
    assert (E2 : (x - inject_Z (Qfloor y) ?= 1 # 2) =
                 (y - inject_Z (Qfloor y) ?= 1 # 2))
      by (apply Qcompare_comp; [now rewrite H | reflexivity]).
    now rewrite E2.
Qed.

Lemma inject_Z_succ (z : Z) : inject_Z (z + 1) == inject_Z z + 1.
Proof. rewrite inject_Z_plus. reflexivity. Qed.

Lemma Qfloor_unique (x : Q) (z : Z) :
  inject_Z z <= x -> x < inject_Z z + 1 -> Qfloor x = z.
Proof.
  intros Hl Hu. apply Z.le_antisymm.
  - pose proof (Qfloor_le x) as H.
    assert (H' : inject_Z (Qfloor x) < inject_Z (z + 1))
      by (rewrite inject_Z_succ; lra).
    rewrite <- Zlt_Qlt in H'. lia.
  - rewrite <- (Qfloor_Z z) at 1. now apply Qfloor_resp_le.
Qed.

Lemma py_round_inject_Z (m : round_mode) (z : Z) :
  py_round m (inject_Z z) = inject_Z z.
Proof.
  unfold py_round. destruct m.
  - destruct (Qle_bool 0 (inject_Z z)).
    + f_equal. apply Qfloor_unique; lra.
    + f_equal.
      rewrite (Qfloor_unique (- inject_Z z + (1 # 2)) (- z));
        [lia | rewrite inject_Z_opp; lra | rewrite inject_Z_opp; lra].
  - cbv zeta. rewrite Qfloor_Z.
    assert (H : (inject_Z z - inject_Z z ?= 1 # 2) = Lt)
      by (apply (proj1 (Qlt_alt _ _)); lra).
    now rewrite H.
Qed.

(** [round] returns an integer at distance at most one half. *)
Lemma py_round_error (m : round_mode) (x : Q) :
  exists z, py_round m x = inject_Z z /\ Qabs (inject_Z z - x) <= 1 # 2.
Proof.
  unfold py_round. destruct m.
  - destruct (Qle_bool 0 x).
    + eexists. split; [reflexivity|].
      pose proof (Qfloor_le (x + (1 # 2))) as Hl.
      pose proof (Qlt_floor (x + (1 # 2))) as Hu.
      rewrite inject_Z_succ in Hu.
      apply Qabs_Qle_condition. split; lra.
    + eexists. split; [reflexivity|].
      pose proof (Qfloor_le (- x + (1 # 2))) as Hl.
      pose proof (Qlt_floor (- x + (1 # 2))) as Hu.
      rewrite inject_Z_succ in Hu.
      rewrite inject_Z_opp.
      apply Qabs_Qle_condition. split; lra.
  - cbv zeta.
    pose proof (Qfloor_le x) as Hl.
    pose proof (Qlt_floor x) as Hu.
    rewrite inject_Z_succ in Hu.
    destruct (x - inject_Z (Qfloor x) ?= 1 # 2) eqn:E.
    + apply (proj2 (Qeq_alt _ _)) in E.
      destruct (Z.even (Qfloor x)); eexists; (split; [reflexivity|]);
        try rewrite inject_Z_succ;
        apply Qabs_Qle_condition; split; lra.
    + apply (proj2 (Qlt_alt _ _)) in E. eexists. split; [reflexivity|].
      apply Qabs_Qle_condition. split; lra.
    + apply (proj2 (Qgt_alt _ _)) in E. eexists. split; [reflexivity|].
      rewrite inject_Z_succ.
      apply Qabs_Qle_condition. split; lra.
Qed.

(** ** Coordinate round trip *)

Lemma real_to_sim_coord_ok (m : round_mode) (self : LinearHuman) (p : point) :
  ~ res_x self == 0 -> ~ res_y self == 0 ->
  exists cx cy,
    real_to_sim_coord m self p = Ok (cx, cy) /\
    py_round m ((fst p - fst (real_lower self)) / res_x self) = inject_Z cx /\
    py_round m ((snd (real_upper self) - snd p) / res_y self) = inject_Z cy.
Proof.
  intros Hx Hy. unfold real_to_sim_coord.
  rewrite !py_div_ok by assumption. cbn [bind].
  destruct (py_round_error m ((fst p - fst (real_lower self)) / res_x self))
    as (cx & Ex & _).
  destruct (py_round_error m ((snd (real_upper self) - snd p) / res_y self))
    as (cy & Ey & _).
  exists cx, cy. rewrite Ex, Ey, !py_int_inject_Z. auto.
Qed.

Lemma inject_Z_eq_inv (a b : Z) : inject_Z a = inject_Z b -> a = b.
Proof. intro H. now injection H. Qed.

Lemma real_to_sim_of_cell (m : round_mode) (self : LinearHuman) (c : cell)
  (p : point) :
  ~ res_x self == 0 -> ~ res_y self == 0 ->
  peq p (sim_to_real_coord self c) ->
  real_to_sim_coord m self p = Ok c.
Proof.
  intros Hx Hy (Hpx & Hpy).
  destruct (real_to_sim_coord_ok m self p Hx Hy) as (cx & cy & -> & Ex & Ey).
  unfold sim_to_real_coord in Hpx, Hpy. simpl in Hpx, Hpy.
  rewrite (py_round_comp m _ (inject_Z (fst c))), py_round_inject_Z in Ex
    by (rewrite Hpx; field; assumption).
  rewrite (py_round_comp m _ (inject_Z (snd c))), py_round_inject_Z in Ey
    by (rewrite Hpy; field; assumption).
  apply inject_Z_eq_inv in Ex, Ey.
  destruct c. simpl in Ex, Ey. now subst.
Qed.

Lemma scaled_error (r z q : Q) :
  Qabs (z - q) <= 1 # 2 -> Qabs (r * (z - q)) <= Qabs r * (1 # 2).
Proof.
  intro H. rewrite Qabs_Qmult.
  rewrite !(Qmult_comm (Qabs r)).
  apply Qmult_le_compat_r; [exact H | apply Qabs_nonneg].
Qed.

(** C6 (as amended): on the 10 x 10 grid over [0,9] x [0,9], cell (3,4) maps
    to the real frame and back to (3,4).  In a frame whose resolutions
    [res_x] and [res_y] are not zero, for every point [p],
    [sim_to_real_coord (real_to_sim_coord p)] is within half a cell of [p] on
    each axis, and is [p] exactly when [p] is a cell centre. *)
Theorem coord_round_trip (m : round_mode) :
  (forall start goals, exists self,
     load_parameters (mkParams (0, 0) (9, 9) start goals 10 10) = Ok self /\
     real_to_sim_coord m self (sim_to_real_coord self (3, 4)%Z)
       = Ok (3, 4)%Z) /\
  (forall (self : LinearHuman) (p : point),
     ~ res_x self == 0 -> ~ res_y self == 0 ->
     exists c,
       real_to_sim_coord m self p = Ok c /\
       Qabs (fst (sim_to_real_coord self c) - fst p)
         <= Qabs (res_x self) * (1 # 2) /\
       Qabs (snd (sim_to_real_coord self c) - snd p)
         <= Qabs (res_y self) * (1 # 2) /\
       (peq (sim_to_real_coord self c) p <->
        exists c', peq p (sim_to_real_coord self c'))).
Proof.
  split.
  - intros start goals. eexists. split.
    { unfold load_parameters. rewrite load_parameters_with_cases.
      reflexivity. }
    apply real_to_sim_of_cell.
    + simpl. intro H. vm_compute in H. discriminate H.
    + simpl. intro H. vm_compute in H. discriminate H.
    + split; reflexivity.
  - intros self p Hx Hy.
    destruct (real_to_sim_coord_ok m self p Hx Hy) as (cx & cy & Hc & Ex & Ey).
    destruct (py_round_error m ((fst p - fst (real_lower self)) / res_x self))
      as (zx & Ex' & Bx).
    destruct (py_round_error m ((snd (real_upper self) - snd p) / res_y self))
      as (zy & Ey' & By).
    rewrite Ex in Ex'. rewrite Ey in Ey'.
    apply inject_Z_eq_inv in Ex', Ey'. subst zx zy.
    exists (cx, cy). split; [exact Hc|].
    unfold sim_to_real_coord. cbn [fst snd].
    split; [|split].
    + apply scaled_error with (r := res_x self) in Bx.
      eapply Qle_trans; [|exact Bx].
      apply Qle_lteq. right. apply Qabs_wd. field. assumption.
    + apply scaled_error with (r := - res_y self) in By.
      rewrite Qabs_opp in By.
      eapply Qle_trans; [|exact By].
      apply Qle_lteq. right. apply Qabs_wd. field. assumption.
    + split.
      * intros (H1 & H2). exists (cx, cy). split; symmetry; assumption.
      * intros (c' & Hc').
        rewrite (real_to_sim_of_cell m self c' p Hx Hy Hc') in Hc.
        injection Hc as Hc. subst c'.
        destruct Hc' as (H1 & H2). split; symmetry; assumption.
Qed.

Lemma coord_round_trip_witness :
  exists self c,
    load_parameters cfg_one_goal = Ok self /\
    real_to_sim_coord HalfToEven self (5 # 2, 7) = Ok c /\
    Qabs (fst (sim_to_real_coord self c) - (5 # 2))
      <= Qabs (res_x self) * (1 # 2).
Proof.
  exists (loaded 60 cfg_one_goal).
  destruct (proj2 (coord_round_trip HalfToEven)
              (loaded 60 cfg_one_goal) (5 # 2, 7))
    as (c & Hc & Hx & _).
  - simpl. intro H. vm_compute in H. discriminate H.
  - simpl. intro H. vm_compute in H. discriminate H.
  - exists c. split; [reflexivity | split; [exact Hc | exact Hx]].
Defined.

(** The construction accepts a real frame of zero width; there [res_x] is 0
    and [real_to_sim_coord] raises at a point of the frame, so nothing is
    recovered. *)
Lemma zero_width_frame_counterexample :
  (exists self,
     load_parameters cfg_zero_width = Ok self /\
     res_x self == 0 /\
     in_box (p_lower cfg_zero_width) (p_upper cfg_zero_width) (2, 5) /\
     forall m, real_to_sim_coord m self (2, 5) = Raise ZeroDivisionError) /\
  ~ round_trip_on_every_frame.
Proof.
  assert (Hbox : in_box (p_lower cfg_zero_width) (p_upper cfg_zero_width)
                   (2, 5)).
  { unfold in_box. repeat split; vm_compute; discriminate. }
  split.
  - eexists. split; [reflexivity|].
    split; [reflexivity | split; [exact Hbox|]].
    intro m. reflexivity.
  - intro H.
    destruct (H HalfToEven cfg_zero_width _ (2, 5)
                (reach_load cfg_zero_width _ eq_refl) Hbox) as (c & Hc & _).
    discriminate Hc.
Qed.

(** ** Independence from earlier calls *)

Lemma pose_xy_set_pose (self : LinearHuman) (target_pos pp : point) :
  pose_xy (set_pose self (pose_of target_pos) pp) = Some target_pos.
Proof. destruct target_pos. reflexivity. Qed.

(** [position_at] reads the schedule only: the two fields [update_pose]
    writes do not change it. *)
Lemma position_at_set_pose (self : LinearHuman) hp pp (t : Q) :
  position_at (set_pose self hp pp) t = position_at self t.
Proof.
  unfold position_at, update_pose.
  cbn [set_pose final_T real_start real_goals step_time waypt_times prev_pose].
  destruct (Qle_bool (final_T self) t); [reflexivity|].
  destruct (py_div t (step_time self)) as [q|]; [|reflexivity].
  cbn [bind].
  destruct (py_index _ (py_int q)) as [prev|]; [|reflexivity].
  cbn [bind].
  destruct (py_index _ (py_int q + 1)) as [next|]; [|reflexivity].
  cbn [bind].
  destruct (py_index (waypt_times self) (py_int q)) as [ti|]; [|reflexivity].
  cbn [bind].
  destruct (py_index (waypt_times self) (py_int q + 1)) as [tf|];
    [|reflexivity].
  cbn [bind].
  destruct (py_div (t - ti) (tf - ti)) as [f|]; reflexivity.
Qed.

Lemma position_at_after_update (self self' : LinearHuman) (u t : Q) :
  update_pose self u = Ok self' ->
  position_at self' t = position_at self t.
Proof.
  intro Hu. apply update_pose_frame in Hu as (tp & pp & ->).
  apply position_at_set_pose.
Qed.

Lemma position_at_after_ticks (ts : list Q) :
  forall (self self' : LinearHuman) out (t : Q),
    tick_loop self ts = Ok (self', out) ->
    position_at self' t = position_at self t.
Proof.
  induction ts as [|u ts IH]; intros self self' out t H; simpl in H.
  - now inversion H.
  - destruct (update_pose self u) as [self1|] eqn:Hu; [|discriminate H].
    cbn [bind] in H.
    destruct (tick_loop self1 ts) as [[self2 out2]|] eqn:Hl; [|discriminate H].
    cbn [bind fst snd] in H. inversion H. subst.
    rewrite (IH _ _ _ t Hl). now apply (position_at_after_update self self1 u).
Qed.

Lemma reachable_total (cfg : Params) (self : LinearHuman) (t : Q) :
  reachable cfg self -> 0 <= t ->
  exists self' p,
    update_pose self t = Ok self' /\ pose_xy self' = Some p /\
    reachable cfg self'.
Proof.
  intros Hr H0.
  destruct (reachable_scheduled cfg self Hr) as (Hs & _).
  assert (HT : 0 < 60) by lra.
  destruct (update_pose_total 60 HT self Hs t H0) as (self' & Hu).
  pose proof (update_pose_frame _ _ _ Hu) as (tp & pp & E).
  exists self', tp. split; [exact Hu | split].
  - rewrite E. apply pose_xy_set_pose.
  - now apply (reach_update cfg self t).
Qed.

(** C7: for a state of a schedule and [t >= 0], [position_at t] returns a
    position [p], and returns the same [p] after any number of earlier calls
    at [t], and after any earlier calls at all: the result depends on [t] and
    the schedule only. *)
Theorem position_at_idempotent (cfg : Params) (self : LinearHuman) (t : Q) :
  reachable cfg self -> 0 <= t ->
  exists p,
    position_at self t = Ok (Some p) /\
    (forall k, exists self_k,
       update_pose_n k self t = Ok self_k /\
       position_at self_k t = Ok (Some p)) /\
    (forall ts self' out,
       tick_loop self ts = Ok (self', out) ->
       position_at self' t = Ok (Some p)).
Proof.
  intros Hr H0.
  destruct (reachable_total cfg self t Hr H0) as (self1 & p & Hu & Hp & _).
  assert (Hpos : position_at self t = Ok (Some p)).
  { unfold position_at. rewrite Hu. cbn [bind]. now rewrite Hp. }
  exists p. split; [exact Hpos | split].
  - intro k. clear Hu Hp self1. revert self Hr Hpos.
    induction k as [|k IH]; intros self Hr Hpos.
    + exists self. split; [reflexivity | exact Hpos].
    + destruct (reachable_total cfg self t Hr H0) as (self1 & q & Hu & _ & Hr1).
      destruct (IH self1 Hr1) as (self_k & Hk & Hpk).
      { rewrite (position_at_after_update self self1 t t Hu). exact Hpos. }
      exists self_k. split; [|exact Hpk].
      simpl. rewrite Hu. exact Hk.
  - intros ts self' out Hl.
    rewrite (position_at_after_ticks ts self self' out t Hl). exact Hpos.
Qed.

Lemma position_at_idempotent_witness :
  exists self self3 p,
    load_parameters cfg_one_goal = Ok self /\
    update_pose_n 3 self 10 = Ok self3 /\
    position_at self 10 = Ok (Some p) /\
    position_at self3 10 = Ok (Some p).
Proof.
  eexists.
  destruct (position_at_idempotent cfg_one_goal _ 10
              (reach_load cfg_one_goal _ eq_refl))
    as (p & Hp & Hk & _).
  - unfold Qle. simpl. lia.
  - destruct (Hk 3%nat) as (self3 & H3 & Hp3).
    exists self3, p. split; [reflexivity|]. auto.
Defined.

(** ** The previous-pose seed *)

(** A call at 30 followed by a call at 60: the second computes (0,0) and
    leaves [prev_pose] at (10,0). *)
Lemma prev_pose_stale_counterexample :
  (exists self self1 self2,
     load_parameters cfg_one_goal = Ok self /\
     update_pose self 30 = Ok self1 /\
     update_pose self1 60 = Ok self2 /\
     pose_xy self2 = Some (0, 0) /\
     peq (prev_pose self2) (10, 0)) /\
  ~ prev_pose_tracks_every_call.
Proof.
  destruct (load_parameters cfg_one_goal) as [self|] eqn:E0;
    [|discriminate E0].
  destruct (update_pose self 30) as [self1|] eqn:E1;
    [|vm_compute in E0; injection E0 as <-; discriminate E1].
  destruct (update_pose self1 60) as [self2|] eqn:E2;
    [|vm_compute in E0; injection E0 as <-;
      vm_compute in E1; injection E1 as <-; discriminate E2].
  assert (Hr : reachable cfg_one_goal self1).
  { apply (reach_update _ self 30); [now apply reach_load | exact E1]. }
  assert (Hpose : pose_xy self2 = Some (0, 0) /\ peq (prev_pose self2) (10, 0)).
  { vm_compute in E0. injection E0 as <-.
    vm_compute in E1. injection E1 as <-.
    vm_compute in E2. injection E2 as <-.
    split; [reflexivity | split; reflexivity]. }
  split.
  - exists self, self1, self2. tauto.
  - intro H.
    destruct (H cfg_one_goal self1 60 self2 Hr) as (p & Hp & Hx & _);
      [unfold Qle; simpl; lia | exact E2 |].
    destruct Hpose as (Hp' & Hx' & _).
    rewrite Hp' in Hp. injection Hp as <-.
    rewrite Hx' in Hx. discriminate Hx.
Qed.

(** C9 (as amended): [prev_pose] starts at the start point; a call with
    [0 <= t < 60] stores the position it computes in [prev_pose]; a call with
    [t >= 60] computes the start point and leaves [prev_pose] as it was.
    Every call stores the position it computes in [human_pose]. *)
Theorem update_pose_prev_pose (cfg : Params) (self : LinearHuman) (t : Q) :
  reachable cfg self -> 0 <= t ->
  (forall self0, load_parameters cfg = Ok self0 ->
     prev_pose self0 = p_real_start cfg /\ human_pose self0 = None) /\
  exists self' p,
    update_pose self t = Ok self' /\
    human_pose self' = pose_of p /\
    position_at self t = Ok (Some p) /\
    (t < 60 -> prev_pose self' = p) /\
    (60 <= t -> p = p_real_start cfg /\ prev_pose self' = prev_pose self).
Proof.
  intros Hr H0. split.
  { intros self0 Hl. apply load_parameters_with_inv in Hl. tauto. }
  destruct (reachable_scheduled cfg self Hr) as (Hs & Hst & Hg).
  assert (HT : 0 < 60) by lra.
  destruct (Qlt_le_dec t 60) as [H1 | H1].
  - destruct (segment_index_bounds 60 HT self Hs t H0 H1) as ((Hk0 & Hkn) & _).
    set (k := Z.to_nat (Qfloor (t / step_time self))).
    assert (Hk : Qfloor (t / step_time self) = Z.of_nat k) by (unfold k; lia).
    destruct (waypts_defined self k) as (p0 & Hp0); [lia|].
    destruct (waypts_defined self (k + 1)) as (p1 & Hp1); [lia|].
    destruct (update_pose_segment 60 HT self Hs t k p0 p1 H0 H1 Hk Hp0 Hp1)
      as (_ & _ & _ & Hu).
    do 2 eexists. split; [exact Hu|].
    split; [reflexivity|].
    split; [unfold position_at; rewrite Hu; cbn [bind];
            now rewrite pose_xy_set_pose|].
    split; [reflexivity | intro; lra].
  - do 2 eexists. split; [exact (update_pose_home 60 self Hs t H1)|].
    split; [reflexivity|].
    split; [now apply (position_at_home 60)|].
    split; [intro; lra | intro; split; [exact Hst | reflexivity]].
Qed.

Lemma update_pose_prev_pose_witness :
  exists self self',
    load_parameters cfg_one_goal = Ok self /\
    update_pose self 15 = Ok self' /\
    pose_xy self' = Some (prev_pose self').
Proof.
  eexists.
  destruct (update_pose_prev_pose cfg_one_goal _ 15
              (reach_load cfg_one_goal _ eq_refl))
    as (_ & self' & p & Hu & Hh & _ & Hlt & _).
  - unfold Qle. simpl. lia.
  - exists self'. split; [reflexivity | split; [exact Hu|]].
    rewrite Hlt by (unfold Qlt; simpl; lia).
    unfold pose_xy. rewrite Hh. destruct p. reflexivity.
Defined.

(** ** Construction and start-up *)

(** With no goal the construction returns, the schedule is the single
    segment start -> start over [0, 60], and the tick loop runs on it. *)
Lemma empty_goals_accepted_counterexample :
  (exists self r,
     load_parameters cfg_no_goal = Ok self /\
     waypts self = [(0, 0); (0, 0)] /\
     Forall2 Qeq (waypt_times self) [0; 60] /\
     init cfg_no_goal [0; 30; 60] = Ok r) /\
  ~ construction_rejects_empty_goals.
Proof.
  split.
  - do 2 eexists. split; [reflexivity|].
    split; [reflexivity|].
    split; [repeat constructor | vm_compute; reflexivity].
  - intro H. destruct (H cfg_no_goal eq_refl) as (e & He). discriminate He.
Qed.

(** A grid one cell wide stops the construction at the division for
    [res_x]. *)
Example flat_grid_fails :
  load_parameters cfg_flat_grid = Raise ZeroDivisionError /\
  init cfg_flat_grid [0; 1] = Raise ZeroDivisionError.
Proof. split; reflexivity. Qed.

Lemma tick_loop_total (cfg : Params) (ts : list Q) :
  forall self,
    reachable cfg self -> Forall (fun t => 0 <= t) ts ->
    exists r, tick_loop self ts = Ok r.
Proof.
  induction ts as [|t ts IH]; intros self Hr Hts.
  - simpl. eauto.
  - inversion Hts as [|? ? H0 Hts']. subst.
    destruct (reachable_total cfg self t Hr H0) as (self1 & _ & Hu & _ & Hr1).
    destruct (IH self1 Hr1 Hts') as (r & Hl).
    simpl. rewrite Hu. cbn [bind]. rewrite Hl. cbn [bind]. eauto.
Qed.

(** With no goal both waypoints are the start point, and so is every
    position. *)
Lemma position_at_no_goal (cfg : Params) (self : LinearHuman) (t : Q) :
  reachable cfg self -> p_real_goals cfg = [] -> 0 <= t ->
  exists p, position_at self t = Ok (Some p) /\ peq p (p_real_start cfg).
Proof.
  intros Hr Hg0 H0.
  destruct (reachable_scheduled cfg self Hr) as (Hs & Hst & Hg).
  assert (HT : 0 < 60) by lra.
  destruct (Qlt_le_dec t 60) as [H1 | H1].
  - destruct (segment_index_bounds 60 HT self Hs t H0 H1) as ((Hk0 & Hkn) & _).
    rewrite Hg, Hg0 in Hkn. cbn [length Z.of_nat] in Hkn.
    assert (Hk : Qfloor (t / step_time self) = Z.of_nat 0)
      by (cbn [Z.of_nat]; lia).
    assert (Hw : waypts self = [p_real_start cfg; p_real_start cfg]).
    { unfold waypts. now rewrite Hst, Hg, Hg0. }
    eexists. split.
    + apply (position_at_segment 60 self t 0 (p_real_start cfg)
               (p_real_start cfg)); try assumption; now rewrite Hw.
    + unfold interpolate, peq, np_add, np_scale, np_sub. simpl. split; ring.
  - exists (real_start self). split; [now apply (position_at_home 60)|].
    rewrite Hst. split; reflexivity.
Qed.

(** C8 (as amended): the construction checks neither the goal list nor the
    duration.  It fails only with [ZeroDivisionError], exactly when the grid
    width or height is 1; otherwise it returns a schedule of duration 60,
    which for an empty goal list is the segment start -> start with
    boundaries [0, 60], where every position is the start point.  A failed
    construction ends start-up before any tick; a tick loop that ran, ran on
    a constructed schedule of positive duration and a grid of no dimension
    1, and it returns for every list of non-negative times. *)
Theorem construction_outcome (cfg : Params) (ts : list Q) :
  (load_parameters cfg =
     if (p_sim_width cfg =? 1)%Z then Raise ZeroDivisionError
     else if (p_sim_height cfg =? 1)%Z then Raise ZeroDivisionError
     else Ok (loaded 60 cfg)) /\
  (forall self, load_parameters cfg = Ok self ->
     final_T self = 60 /\
     (p_real_goals cfg = [] ->
        waypts self = [p_real_start cfg; p_real_start cfg] /\
        Forall2 Qeq (waypt_times self) [0; 60] /\
        forall self' t, reachable cfg self' -> 0 <= t ->
          exists p, position_at self' t = Ok (Some p) /\
                    peq p (p_real_start cfg)) /\
     (Forall (fun t => 0 <= t) ts -> exists r, init cfg ts = Ok r)) /\
  (forall e, load_parameters cfg = Raise e ->
     e = ZeroDivisionError /\ init cfg ts = Raise e) /\
  (forall r, init cfg ts = Ok r ->
     exists self,
       load_parameters cfg = Ok self /\ tick_loop self ts = Ok r /\
       0 < final_T self /\
       p_sim_width cfg <> 1%Z /\ p_sim_height cfg <> 1%Z).
Proof.
  pose proof (load_parameters_with_cases 60 cfg) as Hc.
  fold (load_parameters cfg) in Hc.
  split; [exact Hc | split; [|split]].
  - intros self Hl.
    destruct (load_parameters_with_inv 60 cfg self Hl)
      as ((HfT & Hstep & Htimes) & Hst & Hg & _).
    split; [exact HfT | split].
    + intro Hg0. split; [unfold waypts; now rewrite Hst, Hg, Hg0 | split].
      * rewrite Htimes, Hstep, Hg, Hg0. simpl.
        repeat constructor; vm_compute; reflexivity.
      * intros self' t Hr H0. now apply position_at_no_goal.
    + intro Hts. unfold init. rewrite Hl. cbn [bind].
      apply (tick_loop_total cfg); [now apply reach_load | exact Hts].
  - intros e He. split.
    + rewrite Hc in He.
      destruct (p_sim_width cfg =? 1)%Z; [congruence|].
      destruct (p_sim_height cfg =? 1)%Z; [congruence | discriminate He].
    + unfold init. now rewrite He.
  - intros r Hi. unfold init in Hi.
    destruct (load_parameters cfg) as [self|] eqn:Hl; [|discriminate Hi].
    cbn [bind] in Hi. exists self.
    destruct (load_parameters_with_inv 60 cfg self Hl) as ((HfT & _) & _).
    split; [reflexivity | split; [exact Hi | split; [rewrite HfT; lra|]]].
    destruct (Z.eqb_spec (p_sim_width cfg) 1); [discriminate Hc|].
    destruct (Z.eqb_spec (p_sim_height cfg) 1); [discriminate Hc|].
    auto.
Qed.

(** * Further properties of the code *)

(** ** The path of the human *)

(** The segment a time inside the schedule falls in. *)
Lemma segment_of_time (T : Q) (self : LinearHuman) (t : Q) :
  0 < T -> scheduled T self -> 0 <= t -> t < T ->
  exists k p0 p1,
    (k <= length (real_goals self))%nat /\
    Qfloor (t / step_time self) = Z.of_nat k /\
    nth_error (waypts self) k = Some p0 /\
    nth_error (waypts self) (k + 1) = Some p1 /\
    inject_Z (Z.of_nat k) * step_time self <= t /\
    t < inject_Z (Z.of_nat (k + 1)) * step_time self /\
    position_at self t =
    Ok (Some (interpolate p0 p1 (inject_Z (Z.of_nat k) * step_time self)
                (inject_Z (Z.of_nat (k + 1)) * step_time self) t)).
Proof.
  intros HT Hs H0 H1.
  pose proof (step_time_pos T HT self Hs) as Hp.
  destruct (segment_index_bounds T HT self Hs t H0 H1) as ((Hk0 & Hkn) & _).
  set (k := Z.to_nat (Qfloor (t / step_time self))).
  assert (Hk : Qfloor (t / step_time self) = Z.of_nat k) by (unfold k; lia).
  destruct (waypts_defined self k) as (p0 & Hp0); [lia|].
  destruct (waypts_defined self (k + 1)) as (p1 & Hp1); [lia|].
  pose proof (Qfloor_le (t / step_time self)) as Hfl.
  pose proof (Qlt_floor (t / step_time self)) as Hfu.
  rewrite Hk in Hfl, Hfu.
  assert (Hts : t / step_time self * step_time self == t) by (field; lra).
  exists k, p0, p1.
  split; [lia | split; [exact Hk | split; [exact Hp0 | split; [exact Hp1|]]]].
  split; [|split].
  - rewrite <- Hts. apply Qmult_le_compat_r; lra.
  - replace (Z.of_nat (k + 1)) with (Z.of_nat k + 1)%Z by lia.
    rewrite <- Hts at 1. apply Qmult_lt_compat_r; assumption.
  - now apply (position_at_segment T).
Qed.

Lemma in_box_waypts (lo hi : point) (self : LinearHuman) (i : nat) (w : point) :
  in_box lo hi (real_start self) ->
  Forall (in_box lo hi) (real_goals self) ->
  nth_error (waypts self) i = Some w -> in_box lo hi w.
Proof.
  intros Hst Hg Hw.
  assert (Hall : Forall (in_box lo hi) (waypts self)).
  { unfold waypts. apply Forall_app. split; [now constructor|].
    apply Forall_app. split; [exact Hg | now constructor]. }
  rewrite Forall_forall in Hall. apply Hall.
  eapply nth_error_In. exact Hw.
Qed.

Lemma between_convex (lo hi a b f : Q) :
  0 <= f -> f <= 1 -> lo <= a -> a <= hi -> lo <= b -> b <= hi ->
  lo <= (b - a) * f + a /\ (b - a) * f + a <= hi.
Proof.
  intros Hf0 Hf1 Ha0 Ha1 Hb0 Hb1.
  assert (E1 : (b - a) * f + a - lo == (1 - f) * (a - lo) + f * (b - lo))
    by ring.
  assert (E2 : hi - ((b - a) * f + a) == (1 - f) * (hi - a) + f * (hi - b))
    by ring.
  assert (N1 : 0 <= (1 - f) * (a - lo)) by (apply Qmult_le_0_compat; lra).
  assert (N2 : 0 <= f * (b - lo)) by (apply Qmult_le_0_compat; lra).
  assert (N3 : 0 <= (1 - f) * (hi - a)) by (apply Qmult_le_0_compat; lra).
  assert (N4 : 0 <= f * (hi - b)) by (apply Qmult_le_0_compat; lra).
  split; lra.
Qed.

Lemma fraction_in_unit (t0 t1 t : Q) :
  t0 <= t -> t < t1 ->
  0 <= (t - t0) / (t1 - t0) /\ (t - t0) / (t1 - t0) <= 1.
Proof.
  intros H0 H1. split.
  - apply Qle_shift_div_l; lra.
  - apply Qle_shift_div_r; lra.
Qed.

(** X1: a rectangle that holds the start point and every goal holds every
    position [update_pose] computes for [t >= 0]. *)
Theorem position_stays_in_box (cfg : Params) (self : LinearHuman)
  (lo hi : point) (t : Q) :
  reachable cfg self -> 0 <= t ->
  in_box lo hi (p_real_start cfg) ->
  Forall (in_box lo hi) (p_real_goals cfg) ->
  exists p, position_at self t = Ok (Some p) /\ in_box lo hi p.
Proof.
  intros Hr H0 Hbs Hbg.
  destruct (reachable_scheduled cfg self Hr) as (Hs & Hst & Hg).
  rewrite <- Hst in Hbs. rewrite <- Hg in Hbg.
  assert (HT : 0 < 60) by lra.
  destruct (Qlt_le_dec t 60) as [H1 | H1].
  - destruct (segment_of_time 60 self t HT Hs H0 H1)
      as (k & p0 & p1 & _ & _ & Hp0 & Hp1 & Hl & Hu & Hpos).
    eexists. split; [exact Hpos|].
    pose proof (in_box_waypts lo hi self k p0 Hbs Hbg Hp0)
      as (A1 & A2 & A3 & A4).
    pose proof (in_box_waypts lo hi self _ p1 Hbs Hbg Hp1)
      as (B1 & B2 & B3 & B4).
    destruct (fraction_in_unit _ _ t Hl Hu) as (Hf0 & Hf1).
    unfold in_box, interpolate, np_add, np_scale, np_sub. cbn [fst snd].
    pose proof (between_convex (fst lo) (fst hi) (fst p0) (fst p1) _
                  Hf0 Hf1 A1 A2 B1 B2).
    pose proof (between_convex (snd lo) (snd hi) (snd p0) (snd p1) _
                  Hf0 Hf1 A3 A4 B3 B4).
    tauto.
  - exists (real_start self). split; [now apply (position_at_home 60)|].
    exact Hbs.
Qed.

Lemma position_stays_in_box_witness :
  exists self p,
    load_parameters cfg_two_goals = Ok self /\
    position_at self 47 = Ok (Some p) /\
    in_box (0, 0) (4, 3) p.
Proof.
  eexists.
  destruct (position_stays_in_box cfg_two_goals _ (0, 0) (4, 3) 47
              (reach_load cfg_two_goals _ eq_refl)) as (p & Hp & Hb).
  - unfold Qle. simpl. lia.
  - unfold in_box, Qle. simpl. lia.
  - repeat constructor; unfold Qle; simpl; lia.
  - exists p. split; [reflexivity | split; [exact Hp | exact Hb]].
Defined.

(** The position at a time equal to entry [i] of the boundary table. *)
Lemma position_at_table_entry (T : Q) (self : LinearHuman) (i : nat)
  (t : Q) (w : point) :
  0 < T -> scheduled T self ->
  (i <= length (real_goals self) + 1)%nat ->
  t == inject_Z (Z.of_nat i) * step_time self ->
  nth_error (waypts self) i = Some w ->
  exists p, position_at self t = Ok (Some p) /\ peq p w.
Proof.
  intros HT Hs Hi Ht Hw.
  pose proof (step_time_pos T HT self Hs) as Hp.
  pose proof (step_time_total T self Hs) as Htot.
  destruct (Nat.eq_dec i (length (real_goals self) + 1)) as [-> | Hne].
  - exists (real_start self). split.
    + apply (position_at_home T); [assumption|].
      rewrite Ht, <- Htot.
      replace (Z.of_nat (length (real_goals self) + 1))
        with (Z.of_nat (length (real_goals self)) + 1)%Z by lia.
      lra.
    + rewrite waypts_last in Hw. injection Hw as <-. split; reflexivity.
  - destruct (waypts_defined self (i + 1)) as (p1 & Hp1); [lia|].
    assert (Hlt : inject_Z (Z.of_nat i) <
                  inject_Z (Z.of_nat (length (real_goals self)) + 1))
      by (rewrite <- Zlt_Qlt; lia).
    assert (Hge : 0 <= inject_Z (Z.of_nat i))
      by (change 0 with (inject_Z 0); rewrite <- Zle_Qle; lia).
    eexists. split.
    + apply (position_at_segment T self t i w p1); try assumption.
      * rewrite Ht. apply Qmult_le_0_compat; lra.
      * rewrite Ht, <- Htot. apply Qmult_lt_compat_r; assumption.
      * rewrite <- (Qfloor_Z (Z.of_nat i)). apply Qfloor_comp.
        rewrite Ht. field. lra.
    + apply interpolate_at_t0. exact Ht.
Qed.

Lemma interpolate_diff (p0 p1 : point) (t0 t1 t t' s : Q) :
  t1 - t0 == s -> ~ s == 0 ->
  fst (interpolate p0 p1 t0 t1 t') - fst (interpolate p0 p1 t0 t1 t)
    == (t' - t) / s * (fst p1 - fst p0) /\
  snd (interpolate p0 p1 t0 t1 t') - snd (interpolate p0 p1 t0 t1 t)
    == (t' - t) / s * (snd p1 - snd p0).
Proof.
  intros Hd Hs.
  unfold interpolate, np_add, np_scale, np_sub. cbn [fst snd].
  rewrite Hd. split; field; exact Hs.
Qed.

Lemma interpolate_to_end (p0 p1 p' : point) (t0 t1 t s : Q) :
  peq p' p1 -> t1 - t0 == s -> ~ s == 0 ->
  fst p' - fst (interpolate p0 p1 t0 t1 t)
    == (t1 - t) / s * (fst p1 - fst p0) /\
  snd p' - snd (interpolate p0 p1 t0 t1 t)
    == (t1 - t) / s * (snd p1 - snd p0).
Proof.
  intros (Hx & Hy) Hd Hs.
  unfold interpolate, np_add, np_scale, np_sub. cbn [fst snd].
  rewrite Hx, Hy.
  assert (E : t1 == t0 + s) by lra.
  rewrite Hd, E. split; field; exact Hs.
Qed.

(** X2: inside a segment the human moves at the constant velocity
    [(p1 - p0) / step_time], up to and including the boundary that closes the
    segment: for [t] in segment [k] and [t <= t' <= t_(k+1)], the positions
    at [t'] and [t] differ by [(t' - t) / step_time * (p1 - p0)].  So the
    path has no jump at a boundary. *)
Theorem constant_velocity (cfg : Params) (self : LinearHuman) (t : Q) :
  reachable cfg self -> 0 <= t -> t < 60 ->
  exists k p0 p1 p,
    Qfloor (t / step_time self) = Z.of_nat k /\
    nth_error (waypts self) k = Some p0 /\
    nth_error (waypts self) (k + 1) = Some p1 /\
    position_at self t = Ok (Some p) /\
    forall t',
      t <= t' -> t' <= inject_Z (Z.of_nat (k + 1)) * step_time self ->
      exists p',
        position_at self t' = Ok (Some p') /\
        fst p' - fst p == (t' - t) / step_time self * (fst p1 - fst p0) /\
        snd p' - snd p == (t' - t) / step_time self * (snd p1 - snd p0).
Proof.
  intros Hr H0 H1.
  destruct (reachable_scheduled cfg self Hr) as (Hs & _).
  assert (HT : 0 < 60) by lra.
  pose proof (step_time_pos 60 HT self Hs) as Hp.
  pose proof (step_time_total 60 self Hs) as Htot.
  destruct (segment_of_time 60 self t HT Hs H0 H1)
    as (k & p0 & p1 & Hkn & Hk & Hp0 & Hp1 & Hl & Hu & Hpos).
  exists k, p0, p1. eexists.
  split; [exact Hk | split; [exact Hp0 | split; [exact Hp1|]]].
  split; [exact Hpos|].
  intros t' Ht Ht'.
  set (t0 := inject_Z (Z.of_nat k) * step_time self) in *.
  set (t1 := inject_Z (Z.of_nat (k + 1)) * step_time self) in *.
  assert (Hd : t1 - t0 == step_time self).
  { unfold t1, t0. rewrite Nat2Z.inj_add, inject_Z_plus.
    change (inject_Z (Z.of_nat 1)) with 1. ring. }
  assert (Hnz : ~ step_time self == 0) by lra.
  destruct (Qlt_le_dec t' t1) as [Hin | Hend].
  - (* still inside segment [k] *)
    assert (Hk' : Qfloor (t' / step_time self) = Z.of_nat k).
    { assert (Hts : t' / step_time self * step_time self == t')
        by (field; lra).
      apply Qfloor_unique.
      - apply Qle_shift_div_l; [exact Hp | fold t0; lra].
      - apply Qlt_shift_div_r; [exact Hp|].
        setoid_replace ((inject_Z (Z.of_nat k) + 1) * step_time self)
          with t1; [exact Hin|].
        unfold t1. rewrite Nat2Z.inj_add, inject_Z_plus.
        change (inject_Z (Z.of_nat 1)) with 1. reflexivity. }
    assert (H1' : t' < 60).
    { rewrite <- Htot.
      apply Qlt_le_trans with (y := t1); [exact Hin|].
      unfold t1. apply Qmult_le_compat_r; [|lra].
      rewrite <- Zle_Qle. lia. }
    eexists. split.
    + apply (position_at_segment 60 self t' k p0 p1); try assumption. lra.
    + fold t0 t1. apply interpolate_diff; assumption.
  - (* the boundary that closes the segment *)
    assert (Et : t' == t1) by lra.
    destruct (position_at_table_entry 60 self (k + 1) t' p1 HT Hs)
      as (p' & Hp' & Hpeq); [lia | exact Et | exact Hp1|].
    exists p'. split; [exact Hp'|].
    rewrite Et. apply interpolate_to_end; assumption.
Qed.

Lemma constant_velocity_witness :
  exists self p p',
    load_parameters cfg_one_goal = Ok self /\
    position_at self 20 = Ok (Some p) /\
    position_at self 30 = Ok (Some p') /\
    fst p' - fst p == (30 - 20) / step_time self * (10 - 0).
Proof.
  eexists.
  destruct (constant_velocity cfg_one_goal _ 20
              (reach_load cfg_one_goal _ eq_refl))
    as (k & p0 & p1 & p & Hk & Hp0 & Hp1 & Hp & Hv).
  - unfold Qle. simpl. lia.
  - unfold Qlt. simpl. lia.
  - vm_compute in Hk.
    assert (Ek : k = 0%nat) by (destruct k; [reflexivity | discriminate Hk]).
    subst k. vm_compute in Hp0, Hp1.
    injection Hp0 as <-. injection Hp1 as <-.
    destruct (Hv 30) as (p' & Hp' & Hx & _).
    + unfold Qle. simpl. lia.
    + vm_compute. discriminate.
    + exists p, p'. split; [reflexivity|]. auto.
Defined.

(** ** Times before the start *)

Lemma py_int_ceiling (x : Q) : x <= 0 -> py_int x = (- Qfloor (- x))%Z.
Proof.
  destruct x as [n d]. unfold Qle, py_int. simpl. intro H.
  replace n with (- - n)%Z at 1 by lia.
  rewrite Z.quot_opp_l by lia.
  rewrite Z.quot_div_nonneg by lia. reflexivity.
Qed.

Lemma Qfloor_ge (z : Z) (x : Q) : (z <= Qfloor x)%Z <-> inject_Z z <= x.
Proof.
  split; intro H.
  - apply Qle_trans with (y := inject_Z (Qfloor x)); [|apply Qfloor_le].
    now rewrite <- Zle_Qle.
  - rewrite <- (Qfloor_Z z). now apply Qfloor_resp_le.
Qed.

Lemma py_index_below {A : Type} (l : list A) (i : Z) :
  (i < - Z.of_nat (length l))%Z -> py_index l i = Raise IndexError.
Proof.
  intro H. unfold py_index.
  destruct (Z.ltb_spec i 0); [|lia].
  destruct (Z.leb_spec 0 (i + Z.of_nat (length l))); [lia|]. reflexivity.
Qed.

Lemma py_index_in_range {A : Type} (l : list A) (i : Z) :
  (- Z.of_nat (length l) <= i < Z.of_nat (length l))%Z ->
  exists a,
    py_index l i = Ok a /\
    nth_error l (Z.to_nat (if (i <? 0)%Z then i + Z.of_nat (length l) else i))
      = Some a.
Proof.
  intro H. unfold py_index.
  set (j := if (i <? 0)%Z then (i + Z.of_nat (length l))%Z else i).
  assert (Hj : (0 <= j < Z.of_nat (length l))%Z).
  { unfold j. destruct (Z.ltb_spec i 0); lia. }
  destruct (Z.leb_spec 0 j); [|lia].
  destruct (Z.ltb_spec j (Z.of_nat (length l))); [|lia].
  cbn [andb].
  destruct (nth_error l (Z.to_nat j)) as [a|] eqn:E; [eauto|].
  apply nth_error_None in E. lia.
Qed.

Section BeforeStart.

Variable T : Q.
Hypothesis T_pos : 0 < T.
Variable self : LinearHuman.
Hypothesis Hsched : scheduled T self.

(** The index [update_pose] computes for a negative time. *)
Lemma negative_index (t : Q) :
  t < 0 ->
  let idx := py_int (t / step_time self) in
  (idx <= 0)%Z /\
  forall m : Z,
    (idx <= - m)%Z <-> t <= - inject_Z m * step_time self.
Proof.
  intros Hneg idx.
  pose proof (step_time_pos T T_pos self Hsched) as Hp.
  assert (Hq : t / step_time self <= 0).
  { apply Qle_shift_div_r; [exact Hp | lra]. }
  assert (Hidx : idx = (- Qfloor (- (t / step_time self)))%Z)
    by (apply py_int_ceiling; exact Hq).
  assert (Hts : t / step_time self * step_time self == t) by (field; lra).
  split.
  - rewrite Hidx.
    assert (0 <= Qfloor (- (t / step_time self)))%Z
      by (apply Qfloor_ge; change (inject_Z 0) with 0; lra).
    lia.
  - intro m. rewrite Hidx.
    assert (E : (- Qfloor (- (t / step_time self)) <= - m)%Z <->
                (m <= Qfloor (- (t / step_time self)))%Z) by lia.
    rewrite E, Qfloor_ge. split; intro H.
    + rewrite <- Hts. apply Qmult_le_compat_r; lra.
    + assert (H' : t / step_time self <= - inject_Z m).
      { apply Qle_shift_div_r; [exact Hp | lra]. }
      lra.
Qed.

(** Below the range of the negative indices the first access raises. *)
Lemma update_pose_index_error (t : Q) :
  t < T ->
  (py_int (t / step_time self)
     < - Z.of_nat (length (real_goals self) + 2))%Z ->
  update_pose self t = Raise IndexError.
Proof.
  intros H1 Hidx.
  pose proof (step_time_pos T T_pos self Hsched) as Hp.
  unfold update_pose. fold (waypts self).
  destruct (Qle_bool (final_T self) t) eqn:E.
  { apply Qle_bool_iff in E. destruct Hsched as (HT & _).
    rewrite HT in E. lra. }
  rewrite py_div_ok by lra. cbn [bind].
  rewrite py_index_below by (rewrite length_waypts; exact Hidx).
  reflexivity.
Qed.

(** A negative index in range wraps around, and the call returns. *)
Lemma update_pose_wraps (t : Q) :
  t < T ->
  (- Z.of_nat (length (real_goals self) + 2)
     <= py_int (t / step_time self) <= 0)%Z ->
  exists self', update_pose self t = Ok self'.
Proof.
  intros H1 Hidx.
  pose proof (step_time_pos T T_pos self Hsched) as Hp.
  pose proof (length_waypt_times T self Hsched) as Hlt.
  pose proof (length_waypts self) as Hlw.
  set (n := length (real_goals self)) in *.
  set (idx := py_int (t / step_time self)) in *.
  destruct (py_index_in_range (waypts self) idx) as (p0 & Hp0 & _); [lia|].
  destruct (py_index_in_range (waypts self) (idx + 1)) as (p1 & Hp1 & _);
    [lia|].
  destruct (py_index_in_range (waypt_times self) idx) as (ti & Hti & Nti);
    [lia|].
  destruct (py_index_in_range (waypt_times self) (idx + 1))
    as (tf & Htf & Ntf); [lia|].
  rewrite Hlt in Nti, Ntf.
  rewrite (waypt_times_nth T self Hsched) in Nti
    by (fold n; destruct (Z.ltb_spec idx 0); lia).
  rewrite (waypt_times_nth T self Hsched) in Ntf
    by (fold n; destruct (Z.ltb_spec (idx + 1) 0); lia).
  injection Nti as <-. injection Ntf as <-.
  assert (Hd : ~ inject_Z (Z.of_nat (Z.to_nat
                   (if (idx + 1 <? 0)%Z then idx + 1 + Z.of_nat (n + 2)
                    else idx + 1))) * step_time self
                 - inject_Z (Z.of_nat (Z.to_nat
                     (if (idx <? 0)%Z then idx + Z.of_nat (n + 2) else idx)))
                   * step_time self == 0).
  { intro H.
    assert (H' : (inject_Z (Z.of_nat (Z.to_nat
                    (if (idx + 1 <? 0)%Z then idx + 1 + Z.of_nat (n + 2)
                     else idx + 1)))
                  - inject_Z (Z.of_nat (Z.to_nat
                      (if (idx <? 0)%Z then idx + Z.of_nat (n + 2)
                       else idx)))) * step_time self == 0)
      by (rewrite <- H; ring).
    apply Qmult_integral in H'. destruct H' as [H' | H']; [|lra].
    assert (H2 : inject_Z (Z.of_nat (Z.to_nat
                   (if (idx + 1 <? 0)%Z then idx + 1 + Z.of_nat (n + 2)
                    else idx + 1)))
                 == inject_Z (Z.of_nat (Z.to_nat
                      (if (idx <? 0)%Z then idx + Z.of_nat (n + 2)
                       else idx)))) by lra.
    apply (proj1 (inject_Z_injective _ _)) in H2. revert H2.
    destruct (Z.ltb_spec (idx + 1) 0); destruct (Z.ltb_spec idx 0); lia. }
  unfold update_pose. fold (waypts self).
  destruct (Qle_bool (final_T self) t) eqn:E.
  { apply Qle_bool_iff in E. destruct Hsched as (HT & _).
    rewrite HT in E. lra. }
  rewrite py_div_ok by lra. cbn [bind]. fold idx.
  rewrite Hp0, Hp1, Hti, Htf. cbn [bind].
  rewrite py_div_ok by exact Hd. cbn [bind]. eexists. reflexivity.
Qed.

End BeforeStart.

(** X3: [update_pose] accepts negative times down to a bound.  With [n]
    goals it raises [IndexError] exactly for
    [t <= -(n+3) * step_time]; for every later time, negative or not, it
    returns. *)
Theorem update_pose_fails_iff (cfg : Params) (self : LinearHuman) (t : Q) :
  reachable cfg self ->
  let n := length (p_real_goals cfg) in
  let bound := - inject_Z (Z.of_nat n + 3) * (60 / inject_Z (Z.of_nat n + 1)) in
  (t <= bound -> update_pose self t = Raise IndexError) /\
  (bound < t -> exists self', update_pose self t = Ok self').
Proof.
  intros Hr n bound.
  destruct (reachable_scheduled cfg self Hr) as (Hs & _ & Hg).
  assert (HT : 0 < 60) by lra.
  pose proof (step_time_pos 60 HT self Hs) as Hp.
  assert (Hstep : step_time self = 60 / inject_Z (Z.of_nat n + 1)).
  { destruct Hs as (_ & -> & _). unfold n. now rewrite Hg. }
  unfold bound. rewrite <- Hstep.
  assert (Hn3 : 0 < inject_Z (Z.of_nat n + 3))
    by (change 0 with (inject_Z 0); rewrite <- Zlt_Qlt; lia).
  assert (Hb : - inject_Z (Z.of_nat n + 3) * step_time self < 0).
  { assert (0 < inject_Z (Z.of_nat n + 3) * step_time self)
      by (apply Qmult_lt_0_compat; assumption).
    lra. }
  split; intro Ht.
  - assert (Hneg : t < 0) by lra.
    destruct (negative_index 60 HT self Hs t Hneg) as (_ & Hiff).
    apply (update_pose_index_error 60 HT self Hs); [lra|].
    apply Hiff in Ht. rewrite Hg. fold n. lia.
  - destruct (Qlt_le_dec t 0) as [Hneg | Hpos].
    + destruct (negative_index 60 HT self Hs t Hneg) as (Hle & Hiff).
      apply (update_pose_wraps 60 HT self Hs); [lra|].
      rewrite Hg. fold n. split; [|exact Hle].
      destruct (Z_le_gt_dec (py_int (t / step_time self))
                  (- (Z.of_nat n + 3))) as [Hlow | Hhigh]; [|lia].
      apply Hiff in Hlow. lra.
    + now apply (update_pose_total 60 HT self Hs).
Qed.

Lemma update_pose_fails_iff_witness :
  exists self self',
    load_parameters cfg_one_goal = Ok self /\
    update_pose self (-120) = Raise IndexError /\
    update_pose self (-119) = Ok self'.
Proof.
  eexists.
  destruct (update_pose_fails_iff cfg_one_goal _ (-120)
              (reach_load cfg_one_goal _ eq_refl)) as (Hfail & _).
  destruct (update_pose_fails_iff cfg_one_goal _ (-119)
              (reach_load cfg_one_goal _ eq_refl)) as (_ & Hok).
  destruct Hok as (self' & Hu); [vm_compute; reflexivity|].
  exists self'. split; [reflexivity | split; [|exact Hu]].
  apply Hfail. vm_compute. discriminate.
Defined.

(** The interpolation branch at a known index. *)
Lemma update_pose_at_index (T : Q) (self : LinearHuman) (t : Q) (k : nat)
  (p0 p1 : point) :
  0 < T -> scheduled T self -> t < T ->
  py_int (t / step_time self) = Z.of_nat k ->
  nth_error (waypts self) k = Some p0 ->
  nth_error (waypts self) (k + 1) = Some p1 ->
  position_at self t =
  Ok (Some (interpolate p0 p1 (inject_Z (Z.of_nat k) * step_time self)
              (inject_Z (Z.of_nat (k + 1)) * step_time self) t)).
Proof.
  intros HT Hs H1 Hk Hp0 Hp1.
  pose proof (step_time_pos T HT self Hs) as Hp.
  assert (Hlen : (k + 1 < length (waypts self))%nat)
    by (apply nth_error_Some; congruence).
  rewrite length_waypts in Hlen.
  assert (Ht0 : nth_error (waypt_times self) k =
                Some (inject_Z (Z.of_nat k) * step_time self))
    by (apply (waypt_times_nth T); [assumption | lia]).
  assert (Ht1 : nth_error (waypt_times self) (k + 1) =
                Some (inject_Z (Z.of_nat (k + 1)) * step_time self))
    by (apply (waypt_times_nth T); [assumption | lia]).
  assert (Hd : inject_Z (Z.of_nat (k + 1)) * step_time self
               - inject_Z (Z.of_nat k) * step_time self == step_time self).
  { rewrite Nat2Z.inj_add, inject_Z_plus.
    change (inject_Z (Z.of_nat 1)) with 1. ring. }
  unfold position_at, update_pose. fold (waypts self).
  destruct (Qle_bool (final_T self) t) eqn:E.
  { apply Qle_bool_iff in E. destruct Hs as (HfT & _).
    rewrite HfT in E. lra. }
  rewrite py_div_ok by lra. cbn [bind]. rewrite Hk.
  replace (Z.of_nat k + 1)%Z with (Z.of_nat (k + 1)) by lia.
  rewrite (py_index_nth _ _ _ Hp0), (py_index_nth _ _ _ Hp1).
  rewrite (py_index_nth _ _ _ Ht0), (py_index_nth _ _ _ Ht1).
  cbn [bind]. rewrite py_div_ok by lra. cbn [bind].
  now rewrite pose_xy_set_pose.
Qed.

(** X4: [int] truncates toward zero, so a time in [(-step_time, 0)] gets
    index 0: the position is not clamped to the start point but runs
    backwards along the line of the first segment,
    [start + (t / step_time) * (w1 - start)]. *)
Theorem position_before_zero (cfg : Params) (self : LinearHuman) (t : Q) :
  reachable cfg self ->
  - step_time self < t -> t < 0 ->
  exists w1 p,
    nth_error (waypts self) 1 = Some w1 /\
    position_at self t = Ok (Some p) /\
    fst p == fst (p_real_start cfg)
             + t / step_time self * (fst w1 - fst (p_real_start cfg)) /\
    snd p == snd (p_real_start cfg)
             + t / step_time self * (snd w1 - snd (p_real_start cfg)).
Proof.
  intros Hr Hl Hneg.
  destruct (reachable_scheduled cfg self Hr) as (Hs & Hst & _).
  assert (HT : 0 < 60) by lra.
  pose proof (step_time_pos 60 HT self Hs) as Hp.
  destruct (negative_index 60 HT self Hs t Hneg) as (Hle & Hiff).
  assert (Hk : py_int (t / step_time self) = Z.of_nat 0).
  { destruct (Z_le_gt_dec (py_int (t / step_time self)) (- 1))
      as [Hlow | Hhigh]; [|cbn [Z.of_nat]; lia].
    apply (Hiff 1%Z) in Hlow. change (inject_Z 1) with 1 in Hlow. lra. }
  destruct (waypts_defined self 1) as (w1 & Hw1); [lia|].
  exists w1. eexists. split; [exact Hw1|]. split.
  - apply (update_pose_at_index 60 self t 0 (real_start self) w1);
      try assumption; [lra | apply waypts_first].
  - rewrite <- Hst.
    unfold interpolate, np_add, np_scale, np_sub. cbn [fst snd Nat.add].
    change (inject_Z (Z.of_nat 0)) with 0.
    change (inject_Z (Z.of_nat 1)) with 1.
    split; field; lra.
Qed.

Lemma position_before_zero_witness :
  exists self p,
    load_parameters cfg_one_goal = Ok self /\
    position_at self (-15) = Ok (Some p) /\
    fst p == -5.
Proof.
  eexists.
  destruct (position_before_zero cfg_one_goal _ (-15)
              (reach_load cfg_one_goal _ eq_refl))
    as (w1 & p & Hw1 & Hp & Hx & _).
  - vm_compute. reflexivity.
  - vm_compute. reflexivity.
  - exists p. split; [reflexivity | split; [exact Hp|]].
    vm_compute in Hw1. injection Hw1 as <-.
    rewrite Hx. vm_compute. reflexivity.
Defined.

(** ** The tick loop *)




Lemma update_pose_prev (self self' : LinearHuman) (t : Q) :
  update_pose self t = Ok self' ->
  (Qle_bool (final_T self) t = true /\ prev_pose self' = prev_pose self) \/
  (Qle_bool (final_T self) t = false /\
   position_at self t = Ok (Some (prev_pose self'))).
Proof.
  intro Hu. unfold position_at. rewrite Hu. cbn [bind].
  revert Hu. unfold update_pose.
  destruct (Qle_bool (final_T self) t).
  - intro H. inversion H. left. split; reflexivity.
  - destruct (py_div t (step_time self)) as [q|]; simpl; [|discriminate].
    destruct (py_index _ (py_int q)) as [prev|]; simpl; [|discriminate].
    destruct (py_index _ (py_int q + 1)) as [next|]; simpl; [|discriminate].
    destruct (py_index (waypt_times self) (py_int q)) as [ti|]; simpl;
      [|discriminate].
    destruct (py_index (waypt_times self) (py_int q + 1)) as [tf|]; simpl;
      [|discriminate].
    destruct (py_div (t - ti) (tf - ti)) as [f|]; simpl; [|discriminate].
    intro H. inversion H. right. split; reflexivity.
Qed.

Lemma last_cons_default {A : Type} (l : list A) (x d : A) :
  last (x :: l) d = last l x.
Proof.
  revert x d. induction l as [|y l IH]; intros x d; [reflexivity|].
  change (last (x :: y :: l) d) with (last (y :: l) d).
  now rewrite (IH y d), (IH y x).
Qed.

Lemma tick_loop_state (ts : list Q) :
  forall (self0 self self' : LinearHuman) out (acc : option Q),
    final_T self = final_T self0 ->
    (forall t, position_at self t = position_at self0 t) ->
    match acc with
    | None => prev_pose self = prev_pose self0
    | Some t => position_at self0 t = Ok (Some (prev_pose self))
    end ->
    tick_loop self ts = Ok (self', out) ->
    (exists hp pp, self' = set_pose self hp pp) /\
    human_pose self' = last out (human_pose self) /\
    match fold_left (fun acc t => if Qle_bool (final_T self0) t then acc
                                  else Some t) ts acc with
    | None => prev_pose self' = prev_pose self0
    | Some t => position_at self0 t = Ok (Some (prev_pose self'))
    end.
Proof.
  induction ts as [|t ts IH]; intros self0 self self' out acc HfT Hpos Hacc Hl;
    simpl in Hl.
  - inversion Hl. subst. split; [|split; [reflexivity | exact Hacc]].
    exists (human_pose self'), (prev_pose self'). now destruct self'.
  - destruct (update_pose self t) as [self1|] eqn:Hu; [|discriminate Hl].
    cbn [bind] in Hl.
    destruct (tick_loop self1 ts) as [[self2 out2]|] eqn:Hl2;
      [|discriminate Hl].
    cbn [bind fst snd] in Hl. inversion Hl. subst.
    pose proof (update_pose_frame _ _ _ Hu) as (tp & pp & E).
    assert (HfT1 : final_T self1 = final_T self0) by (now rewrite E).
    assert (Hpos1 : forall u, position_at self1 u = position_at self0 u).
    { intro u. rewrite <- Hpos.
      apply (position_at_after_update self self1 t u Hu). }
    cbn [fold_left]. rewrite <- HfT.
    destruct (update_pose_prev _ _ _ Hu) as [(Hb & Hpp) | (Hb & Hpp)];
      rewrite Hb.
    + destruct (IH self0 self1 self' out2 acc HfT1 Hpos1) as (Hf & Hh & Hm);
        [rewrite Hpp; exact Hacc | exact Hl2 |].
      rewrite HfT. split; [|split; [|exact Hm]].
      * destruct Hf as (hp & pp' & ->). rewrite E. now exists hp, pp'.
      * rewrite last_cons_default. exact Hh.
    + destruct (IH self0 self1 self' out2 (Some t) HfT1 Hpos1)
        as (Hf & Hh & Hm);
        [rewrite <- Hpos; exact Hpp | exact Hl2 |].
      rewrite HfT. split; [|split; [|exact Hm]].
      * destruct Hf as (hp & pp' & ->). rewrite E. now exists hp, pp'.
      * rewrite last_cons_default. exact Hh.
Qed.

(** X6: whatever times the tick loop is run on, when it returns it has
    changed no attribute but [human_pose] and [prev_pose]; [human_pose] is
    the last pose published, and [prev_pose] is the position of the last tick
    whose time lies before [final_T], or is untouched when there is none. *)
Theorem tick_loop_final_state (self self' : LinearHuman) (ts : list Q)
  (out : list (option Pose)) :
  tick_loop self ts = Ok (self', out) ->
  (exists hp pp, self' = set_pose self hp pp) /\
  human_pose self' = last out (human_pose self) /\
  match last_before (final_T self) ts with
  | None => prev_pose self' = prev_pose self
  | Some t => position_at self t = Ok (Some (prev_pose self'))
  end.
Proof.
  intro Hl. unfold last_before.
  apply (tick_loop_state ts self self self' out None); auto.
Qed.

Lemma tick_loop_final_state_witness :
  exists self self' out,
    load_parameters cfg_one_goal = Ok self /\
    tick_loop self [10; 45; 70; 80] = Ok (self', out) /\
    position_at self 45 = Ok (Some (prev_pose self')).
Proof.
  destruct (load_parameters cfg_one_goal) as [self|] eqn:E0;
    [|discriminate E0].
  destruct (tick_loop self [10; 45; 70; 80]) as [[self' out]|] eqn:E1;
    [|vm_compute in E0; injection E0 as <-; discriminate E1].
  exists self, self', out. split; [reflexivity | split; [exact E1|]].
  destruct (tick_loop_final_state self self' _ out E1) as (_ & _ & H).
  vm_compute in E0. injection E0 as <-. exact H.
Defined.

(** ** The grid and the real frame *)

(** The frame attributes of a state of the object. *)
Lemma reachable_frame (cfg : Params) (self : LinearHuman) :
  reachable cfg self ->
  p_sim_width cfg <> 1%Z /\ p_sim_height cfg <> 1%Z /\
  real_lower self = p_lower cfg /\ real_upper self = p_upper cfg /\
  res_x self = (fst (p_upper cfg) - fst (p_lower cfg))
               / inject_Z (p_sim_width cfg - 1) /\
  res_y self = (snd (p_upper cfg) - snd (p_lower cfg))
               / inject_Z (p_sim_height cfg - 1).
Proof.
  induction 1 as [self H | self t self' _ IH Hu].
  - unfold load_parameters in H. rewrite load_parameters_with_cases in H.
    destruct (Z.eqb_spec (p_sim_width cfg) 1); [discriminate H|].
    destruct (Z.eqb_spec (p_sim_height cfg) 1); [discriminate H|].
    injection H as <-. repeat split; try assumption; reflexivity.
  - apply update_pose_frame in Hu as (tp & pp & ->). exact IH.
Qed.

Lemma inject_Z_pred_nonzero (z : Z) : z <> 1%Z -> ~ inject_Z (z - 1) == 0.
Proof. intros H E. apply inject_Z_pred_zero in E. contradiction. Qed.

Lemma resolution_nonzero (w d : Q) : ~ w == 0 -> ~ d == 0 -> ~ w / d == 0.
Proof.
  intros Hw Hd E.
  assert (E' : w == w / d * d) by (field; exact Hd).
  rewrite E in E'. apply Hw. rewrite E'. ring.
Qed.

(** X7: the grid spans the real frame with the vertical axis turned over:
    cell (0,0) is the upper left corner [(lower.x, upper.y)] and cell
    [(sim_width - 1, sim_height - 1)] the lower right corner
    [(upper.x, lower.y)]. *)
Theorem sim_to_real_corners (cfg : Params) (self : LinearHuman) :
  reachable cfg self ->
  peq (sim_to_real_coord self (0, 0)%Z)
      (fst (p_lower cfg), snd (p_upper cfg)) /\
  peq (sim_to_real_coord self
         (p_sim_width cfg - 1, p_sim_height cfg - 1)%Z)
      (fst (p_upper cfg), snd (p_lower cfg)).
Proof.
  intro Hr.
  destruct (reachable_frame cfg self Hr) as (Hw & Hh & Hlo & Hup & Hrx & Hry).
  pose proof (inject_Z_pred_nonzero _ Hw) as Nw.
  pose proof (inject_Z_pred_nonzero _ Hh) as Nh.
  unfold sim_to_real_coord, peq. cbn [fst snd].
  rewrite Hlo, Hup, Hrx, Hry.
  repeat split; try (change (inject_Z 0) with 0; ring); field; assumption.
Qed.

Lemma sim_to_real_corners_witness :
  exists self,
    load_parameters cfg_two_goals = Ok self /\
    peq (sim_to_real_coord self (8, 4)%Z) (6, -3).
Proof.
  eexists. split; [reflexivity|].
  exact (proj2 (sim_to_real_corners cfg_two_goals _
                  (reach_load cfg_two_goals _ eq_refl))).
Defined.

(** X8: on a frame of non-zero width and height, [real_to_sim_coord] undoes
    [sim_to_real_coord] on every cell, under either tie rule of [round]. *)
Theorem cell_round_trip (m : round_mode) (cfg : Params) (self : LinearHuman)
  (c : cell) :
  reachable cfg self ->
  ~ fst (p_upper cfg) == fst (p_lower cfg) ->
  ~ snd (p_upper cfg) == snd (p_lower cfg) ->
  real_to_sim_coord m self (sim_to_real_coord self c) = Ok c.
Proof.
  intros Hr Hx Hy.
  destruct (reachable_frame cfg self Hr) as (Hw & Hh & _ & _ & Hrx & Hry).
  apply real_to_sim_of_cell.
  - rewrite Hrx. apply resolution_nonzero; [lra|].
    now apply inject_Z_pred_nonzero.
  - rewrite Hry. apply resolution_nonzero; [lra|].
    now apply inject_Z_pred_nonzero.
  - split; reflexivity.
Qed.

Lemma cell_round_trip_witness :
  exists self,
    load_parameters cfg_two_goals = Ok self /\
    real_to_sim_coord HalfAwayFromZero self
      (sim_to_real_coord self (7, -2)%Z) = Ok (7, -2)%Z.
Proof.
  eexists. split; [reflexivity|].
  apply (cell_round_trip HalfAwayFromZero cfg_two_goals _ (7, -2)%Z
           (reach_load cfg_two_goals _ eq_refl)).
  - vm_compute. discriminate.
  - vm_compute. discriminate.
Defined.

(** X9: [real_to_sim_coord] raises [ZeroDivisionError] on every point when
    the real frame has zero width or zero height, and on no point
    otherwise. *)
Theorem real_to_sim_coord_fails_iff (m : round_mode) (cfg : Params)
  (self : LinearHuman) (p : point) :
  reachable cfg self ->
  (fst (p_upper cfg) == fst (p_lower cfg) \/
   snd (p_upper cfg) == snd (p_lower cfg) ->
   real_to_sim_coord m self p = Raise ZeroDivisionError) /\
  (~ fst (p_upper cfg) == fst (p_lower cfg) ->
   ~ snd (p_upper cfg) == snd (p_lower cfg) ->
   exists c, real_to_sim_coord m self p = Ok c).
Proof.
  intro Hr.
  destruct (reachable_frame cfg self Hr) as (Hw & Hh & _ & _ & Hrx & Hry).
  pose proof (inject_Z_pred_nonzero _ Hw) as Nw.
  pose proof (inject_Z_pred_nonzero _ Hh) as Nh.
  split.
  - intro Hdeg. unfold real_to_sim_coord.
    destruct (Qeq_dec (fst (p_upper cfg)) (fst (p_lower cfg))) as [Ex | Nx].
    + rewrite py_div_zero; [reflexivity|].
      rewrite Hrx. unfold Qdiv.
      setoid_replace (fst (p_upper cfg) - fst (p_lower cfg)) with 0 by lra.
      ring.
    + destruct Hdeg as [Ex | Ey]; [contradiction|].
      rewrite py_div_ok.
      * cbn [bind]. rewrite py_div_zero; [reflexivity|].
        rewrite Hry. unfold Qdiv.
        setoid_replace (snd (p_upper cfg) - snd (p_lower cfg)) with 0 by lra.
        ring.
      * rewrite Hrx. apply resolution_nonzero; [lra | assumption].
  - intros Nx Ny.
    destruct (real_to_sim_coord_ok m self p) as (cx & cy & Hc & _).
    + rewrite Hrx. apply resolution_nonzero; [lra | assumption].
    + rewrite Hry. apply resolution_nonzero; [lra | assumption].
    + eauto.
Qed.

Lemma real_to_sim_coord_fails_iff_witness :
  exists self,
    load_parameters cfg_zero_width = Ok self /\
    real_to_sim_coord HalfToEven self (2, 5) = Raise ZeroDivisionError.
Proof.
  eexists. split; [reflexivity|].
  apply (real_to_sim_coord_fails_iff HalfToEven cfg_zero_width _ (2, 5)
           (reach_load cfg_zero_width _ eq_refl)).
  left. reflexivity.
Defined.

Lemma py_round_in_range (m : round_mode) (q : Q) (N : Z) :
  0 <= q -> q <= inject_Z N ->
  exists z, py_round m q = inject_Z z /\ (0 <= z <= N)%Z.
Proof.
  intros H0 H1.
  destruct (py_round_error m q) as (z & Ez & Hz).
  apply Qabs_Qle_condition in Hz. destruct Hz as (Hl & Hu).
  exists z. split; [exact Ez|]. split.
  - assert (H : inject_Z (-1) < inject_Z z)
      by (change (inject_Z (-1)) with (-1); lra).
    rewrite <- Zlt_Qlt in H. lia.
  - assert (H : inject_Z z < inject_Z (N + 1))
      by (rewrite inject_Z_succ; lra).
    rewrite <- Zlt_Qlt in H. lia.
Qed.

(** X10: on a frame with [lower < upper] on both axes and a grid of at least
    two cells each way, every point of the real frame is sent to a cell of
    the grid: column in [0, sim_width - 1], row in [0, sim_height - 1]. *)
Theorem real_to_sim_in_grid (m : round_mode) (cfg : Params)
  (self : LinearHuman) (p : point) :
  reachable cfg self ->
  fst (p_lower cfg) < fst (p_upper cfg) ->
  snd (p_lower cfg) < snd (p_upper cfg) ->
  (2 <= p_sim_width cfg)%Z -> (2 <= p_sim_height cfg)%Z ->
  in_box (p_lower cfg) (p_upper cfg) p ->
  exists cx cy,
    real_to_sim_coord m self p = Ok (cx, cy) /\
    (0 <= cx <= p_sim_width cfg - 1)%Z /\
    (0 <= cy <= p_sim_height cfg - 1)%Z.
Proof.
  intros Hr Hx Hy Hw Hh (Bx0 & Bx1 & By0 & By1).
  destruct (reachable_frame cfg self Hr) as (_ & _ & Hlo & Hup & Hrx & Hry).
  assert (Dw : 0 < inject_Z (p_sim_width cfg - 1))
    by (change 0 with (inject_Z 0); rewrite <- Zlt_Qlt; lia).
  assert (Dh : 0 < inject_Z (p_sim_height cfg - 1))
    by (change 0 with (inject_Z 0); rewrite <- Zlt_Qlt; lia).
  assert (Px : 0 < res_x self)
    by (rewrite Hrx; apply Qlt_shift_div_l; [exact Dw | lra]).
  assert (Py : 0 < res_y self)
    by (rewrite Hry; apply Qlt_shift_div_l; [exact Dh | lra]).
  assert (Ex : inject_Z (p_sim_width cfg - 1) * res_x self
               == fst (p_upper cfg) - fst (p_lower cfg))
    by (rewrite Hrx; field; lra).
  assert (Ey : inject_Z (p_sim_height cfg - 1) * res_y self
               == snd (p_upper cfg) - snd (p_lower cfg))
    by (rewrite Hry; field; lra).
  destruct (real_to_sim_coord_ok m self p) as (cx & cy & Hc & Rx & Ry);
    [lra | lra |].
  rewrite Hlo in Rx. rewrite Hup in Ry.
  destruct (py_round_in_range m
              ((fst p - fst (p_lower cfg)) / res_x self)
              (p_sim_width cfg - 1)) as (zx & Zx & Hzx).
  { apply Qle_shift_div_l; [exact Px | lra]. }
  { apply Qle_shift_div_r; [exact Px | lra]. }
  destruct (py_round_in_range m
              ((snd (p_upper cfg) - snd p) / res_y self)
              (p_sim_height cfg - 1)) as (zy & Zy & Hzy).
  { apply Qle_shift_div_l; [exact Py | lra]. }
  { apply Qle_shift_div_r; [exact Py | lra]. }
  rewrite Rx in Zx. rewrite Ry in Zy.
  apply inject_Z_eq_inv in Zx, Zy. subst zx zy.
  exists cx, cy. auto.
Qed.

Lemma real_to_sim_in_grid_witness :
  exists self cx cy,
    load_parameters cfg_two_goals = Ok self /\
    real_to_sim_coord HalfToEven self (5 # 2, 9 # 2) = Ok (cx, cy) /\
    (0 <= cx <= 8)%Z /\ (0 <= cy <= 4)%Z.
Proof.
  eexists.
  destruct (real_to_sim_in_grid HalfToEven cfg_two_goals _ (5 # 2, 9 # 2)
              (reach_load cfg_two_goals _ eq_refl))
    as (cx & cy & Hc & Hx & Hy).
  - vm_compute. reflexivity.
  - vm_compute. reflexivity.
  - simpl. lia.
  - simpl. lia.
  - unfold in_box. repeat split; vm_compute; discriminate.
  - exists cx, cy. split; [reflexivity|]. auto.
Defined.

(** ** Markers *)

Lemma color_components (col : list Q) :
  (3 <= length col)%nat ->
  exists r g b,
    py_index col 0 = Ok r /\ py_index col 1 = Ok g /\ py_index col 2 = Ok b.
Proof.
  intro H. destruct col as [|r [|g [|b rest]]]; simpl in H; try lia.
  exists r, g, b. split; [|split].
  - apply (py_index_nth _ 0%nat). reflexivity.
  - apply (py_index_nth _ 1%nat). reflexivity.
  - apply (py_index_nth _ 2%nat). reflexivity.
Qed.

Lemma color_too_short (col : list Q) :
  (length col < 3)%nat ->
  (r <- py_index col 0 ;; g <- py_index col 1 ;; b <- py_index col 2 ;;
   Ok (r, g, b)) = Raise IndexError.
Proof.
  intro H. destruct col as [|r [|g [|b rest]]]; simpl in H; try lia;
    reflexivity.
Qed.

Lemma state_to_marker_short (fresh_id : Z) (self : LinearHuman) (xy : point)
  (col : list Q) :
  (length col < 3)%nat ->
  state_to_marker fresh_id self xy col = Raise IndexError.
Proof.
  intro H. destruct col as [|r [|g [|b rest]]]; simpl in H; try lia;
    reflexivity.
Qed.

Lemma pose_to_marker_short (fresh_id : Z) (self : LinearHuman)
  (app : Appearance) (col : list Q) :
  (length col < 3)%nat ->
  pose_to_marker fresh_id self app col = Raise IndexError.
Proof.
  intro H. destruct col as [|r [|g [|b rest]]]; simpl in H; try lia;
    reflexivity.
Qed.

Lemma make_goal_markers_ok (fresh_id : Z) (self : LinearHuman)
  (col : list Q) (goals : list point) :
  (3 <= length col)%nat ->
  exists markers,
    make_goal_markers fresh_id self col goals = Ok markers /\
    map (fun mk => (position_x mk, position_y mk)) markers = goals /\
    Forall (goal_marker_shape self col) markers.
Proof.
  intro H. destruct (color_components col H) as (r & g & b & Hr & Hg & Hb).
  induction goals as [|xy goals IH].
  - exists []. repeat split. constructor.
  - destruct IH as (markers & Hm & Hpos & Hshape).
    cbn [make_goal_markers]. unfold state_to_marker.
    rewrite Hr, Hg, Hb. cbn [bind]. rewrite Hm. cbn [bind].
    eexists. split; [reflexivity|]. split.
    + cbn [map position_x position_y]. rewrite Hpos. now destruct xy.
    + constructor; [|exact Hshape].
      unfold goal_marker_shape. cbn. tauto.
Qed.

Lemma renumber_ids (k : nat) (markers : list Marker) :
  map m_id (renumber (Z.of_nat k) markers) =
  map Z.of_nat (seq k (length markers)).
Proof.
  revert k. induction markers as [|mk markers IH]; intro k; [reflexivity|].
  cbn [renumber map length seq set_id m_id]. f_equal.
  replace (Z.of_nat k + 1)%Z with (Z.of_nat (S k)) by lia. apply IH.
Qed.

Lemma renumber_positions (id : Z) (markers : list Marker) :
  map (fun mk => (position_x mk, position_y mk)) (renumber id markers) =
  map (fun mk => (position_x mk, position_y mk)) markers.
Proof.
  revert id. induction markers as [|mk markers IH]; intro id; [reflexivity|].
  cbn [renumber map]. now rewrite IH.
Qed.

Lemma renumber_shape (self : LinearHuman) (col : list Q) (id : Z)
  (markers : list Marker) :
  Forall (goal_marker_shape self col) markers ->
  Forall (goal_marker_shape self col) (renumber id markers).
Proof.
  intro H. revert id. induction H as [|mk markers Hmk _ IH]; intro id.
  - constructor.
  - cbn [renumber]. constructor; [exact Hmk | apply IH].
Qed.

(** X11: with a colour of at least three components, [__init__] builds one
    sphere per goal, in the order of the goals and at the goals' positions,
    and numbers them 0, 1, ..., n-1, whatever [id] a new marker carries: the
    ids are distinct. *)
Theorem goal_markers_numbered (fresh_id : Z) (self : LinearHuman)
  (app : Appearance) :
  (3 <= length (color app))%nat ->
  exists marker_array,
    goal_marker_array fresh_id self app = Ok marker_array /\
    map m_id marker_array = py_range (length (real_goals self)) /\
    NoDup (map m_id marker_array) /\
    map (fun mk => (position_x mk, position_y mk)) marker_array
      = real_goals self /\
    Forall (goal_marker_shape self (color app)) marker_array.
Proof.
  intro H.
  destruct (make_goal_markers_ok fresh_id self (color app) (real_goals self) H)
    as (markers & Hm & Hpos & Hshape).
  assert (Hlen : length markers = length (real_goals self)).
  { rewrite <- Hpos. now rewrite length_map. }
  assert (Hids : map m_id (renumber 0 markers) =
                 py_range (length (real_goals self))).
  { unfold py_range. rewrite <- Hlen. apply (renumber_ids 0). }
  exists (renumber 0 markers). unfold goal_marker_array.
  rewrite Hm. cbn [bind].
  split; [reflexivity | split; [exact Hids | split; [|split]]].
  - rewrite Hids. unfold py_range.
    apply NoDup_map_NoDup_ForallPairs; [|apply seq_NoDup].
    intros a b _ _. apply Nat2Z.inj.
  - rewrite renumber_positions. exact Hpos.
  - apply renumber_shape. exact Hshape.
Qed.

Lemma goal_markers_numbered_witness :
  exists self marker_array,
    load_parameters cfg_two_goals = Ok self /\
    goal_marker_array 7 self red_person = Ok marker_array /\
    map m_id marker_array = [0; 1]%Z.
Proof.
  eexists.
  destruct (goal_markers_numbered 7 (loaded 60 cfg_two_goals) red_person)
    as (arr & Ha & Hids & _).
  - simpl. lia.
  - exists arr. split; [reflexivity | split; [exact Ha | exact Hids]].
Defined.

(** ** Start-up with publications *)

(** What one tick publishes, for a goal array [arr]. *)
Lemma publish_loop_trace (fresh_id : Z) (cfg : Params) (app : Appearance)
  (arr : list Marker) (ts : list Q) :
  (3 <= length (color app))%nat ->
  forall self,
    reachable cfg self -> Forall (fun t => 0 <= t) ts ->
    exists self' trace,
      publish_loop fresh_id app arr self ts = Ok (self', trace) /\
      tick_loop self ts = Ok (self', map pub_state trace) /\
      Forall (published_tick self app arr) trace.
Proof.
  intro Hcol.
  destruct (color_components _ Hcol) as (r & g & b & Hr & Hg & Hb).
  induction ts as [|t ts IH]; intros self Hreach Hts.
  - exists self, []. repeat split. constructor.
  - inversion Hts as [|? ? H0 Hts']. subst.
    destruct (reachable_total cfg self t Hreach H0)
      as (self1 & p & Hu & _ & Hreach1).
    pose proof (update_pose_frame _ _ _ Hu) as (tp & pp & E).
    destruct (IH self1 Hreach1 Hts') as (self' & trace & Hl & Htl & Hall).
    cbn [publish_loop tick_loop]. rewrite Hu. cbn [bind].
    unfold pose_to_marker. rewrite Hr, Hg, Hb. cbn [bind].
    rewrite Hl, Htl. cbn [bind fst snd].
    eexists. eexists. split; [reflexivity|].
    split; [reflexivity|].
    constructor.
    + unfold published_tick. cbn [pub_goals pub_state pub_marker].
      split; [reflexivity|]. exists tp.
      rewrite E. cbn. repeat split; reflexivity.
    + eapply Forall_impl; [|exact Hall].
      intros pb (Hgoals & q & Hq). split; [exact Hgoals|].
      exists q. rewrite E in Hq. exact Hq.
Qed.

(** X12: with a colour of at least three components and a grid of no
    dimension 1, start-up returns for every list of non-negative sample
    times.  Its poses are those of the bare tick loop; every tick publishes
    the same goal array, and a cube of height [human_height] standing at that
    tick's pose with its centre at [human_height / 2]: the branch of
    [pose_to_marker] for an unset pose is never the one published. *)
Theorem init_publishing_trace (fresh_id : Z) (cfg : Params)
  (app : Appearance) (ts : list Q) :
  (3 <= length (color app))%nat ->
  Forall (fun t => 0 <= t) ts ->
  p_sim_width cfg <> 1%Z -> p_sim_height cfg <> 1%Z ->
  exists self self' trace arr,
    load_parameters cfg = Ok self /\
    goal_marker_array fresh_id self app = Ok arr /\
    init_publishing fresh_id cfg app ts = Ok (self', trace) /\
    init cfg ts = Ok (self', map pub_state trace) /\
    Forall (published_tick self app arr) trace.
Proof.
  intros Hcol Hts Hw Hh.
  assert (Hload : load_parameters cfg = Ok (loaded 60 cfg)).
  { unfold load_parameters. rewrite load_parameters_with_cases.
    destruct (Z.eqb_spec (p_sim_width cfg) 1); [contradiction|].
    destruct (Z.eqb_spec (p_sim_height cfg) 1); [contradiction|].
    reflexivity. }
  destruct (make_goal_markers_ok fresh_id (loaded 60 cfg) (color app)
              (real_goals (loaded 60 cfg)) Hcol) as (markers & Hm & _).
  assert (Harr : goal_marker_array fresh_id (loaded 60 cfg) app =
                 Ok (renumber 0 markers)).
  { unfold goal_marker_array. rewrite Hm. reflexivity. }
  destruct (publish_loop_trace fresh_id cfg app (renumber 0 markers) ts Hcol
              (loaded 60 cfg) (reach_load cfg _ Hload) Hts)
    as (self' & trace & Hl & Htl & Hall).
  exists (loaded 60 cfg), self', trace, (renumber 0 markers).
  split; [exact Hload | split; [exact Harr|]].
  unfold init_publishing, init. rewrite Hload. cbn [bind].
  rewrite Harr. cbn [bind]. auto.
Qed.

Lemma init_publishing_trace_witness :
  exists self' trace,
    init_publishing 0 cfg_two_goals red_person [0; 10; 65]
      = Ok (self', trace) /\
    init cfg_two_goals [0; 10; 65] = Ok (self', map pub_state trace).
Proof.
  destruct (init_publishing_trace 0 cfg_two_goals red_person [0; 10; 65])
    as (self & self' & trace & arr & _ & _ & Hi & Ht & _).
  - simpl. lia.
  - repeat constructor; unfold Qle; simpl; lia.
  - simpl. lia.
  - simpl. lia.
  - exists self', trace. split; [exact Hi | exact Ht].
Defined.

(** X13: a colour of fewer than three components makes start-up fail with
    [IndexError] as soon as a marker is built: before the loop when there is
    a goal, at the first tick otherwise. *)
Theorem short_color_fails (fresh_id : Z) (cfg : Params) (app : Appearance)
  (ts : list Q) (self : LinearHuman) :
  (length (color app) < 3)%nat ->
  load_parameters cfg = Ok self ->
  (p_real_goals cfg <> [] ->
   init_publishing fresh_id cfg app ts = Raise IndexError) /\
  (p_real_goals cfg = [] ->
   goal_marker_array fresh_id self app = Ok [] /\
   forall t ts', ts = t :: ts' -> 0 <= t ->
     init_publishing fresh_id cfg app ts = Raise IndexError).
Proof.
  intros Hcol Hload.
  destruct (load_parameters_with_inv 60 cfg self Hload) as (_ & _ & Hg & _).
  unfold init_publishing. rewrite Hload. cbn [bind].
  unfold goal_marker_array. rewrite Hg.
  split.
  - intro Hne. destruct (p_real_goals cfg) as [|g goals]; [contradiction|].
    cbn [make_goal_markers].
    rewrite state_to_marker_short by exact Hcol. reflexivity.
  - intro Hnil. rewrite Hnil. cbn [make_goal_markers bind renumber].
    split; [reflexivity|].
    intros t ts' -> H0.
    destruct (reachable_total cfg self t (reach_load cfg self Hload) H0)
      as (self1 & _ & Hu & _).
    cbn [publish_loop]. rewrite Hu. cbn [bind].
    rewrite pose_to_marker_short by exact Hcol. reflexivity.
Qed.

Lemma short_color_fails_witness :
  init_publishing 0 cfg_two_goals (mkAppearance [1; 0] 2) [0; 1]
  = Raise IndexError.
Proof.
  destruct (short_color_fails 0 cfg_two_goals (mkAppearance [1; 0] 2) [0; 1]
              (loaded 60 cfg_two_goals)) as (H & _).
  - simpl. lia.
  - reflexivity.
  - apply H. discriminate.
Defined.

(** ** The nearest cell *)

Lemma nearest_integer (z z' : Z) (q : Q) :
  Qabs (inject_Z z - q) <= 1 # 2 ->
  Qabs (inject_Z z - q) <= Qabs (inject_Z z' - q).
Proof.
  intro H. pose proof H as H'.
  apply Qabs_Qle_condition in H'. destruct H' as (Hl & Hu).
  destruct (Z.eq_dec z' z) as [-> | Hne]; [apply Qle_refl|].
  apply Qle_trans with (y := 1 # 2); [exact H|].
  destruct (Z_lt_le_dec z' z) as [Hlt | Hge].
  - assert (Hz : inject_Z z' + 1 <= inject_Z z)
      by (rewrite <- inject_Z_succ, <- Zle_Qle; lia).
    rewrite <- Qabs_opp.
    apply Qle_trans with (y := - (inject_Z z' - q)); [lra | apply Qle_Qabs].
  - assert (Hz : inject_Z z + 1 <= inject_Z z')
      by (rewrite <- inject_Z_succ, <- Zle_Qle; lia).
    apply Qle_trans with (y := inject_Z z' - q); [lra | apply Qle_Qabs].
Qed.

Lemma scaled_compare (r a b : Q) :
  Qabs a <= Qabs b -> Qabs (r * a) <= Qabs (r * b).
Proof.
  intro H. rewrite !Qabs_Qmult, !(Qmult_comm (Qabs r)).
  apply Qmult_le_compat_r; [exact H | apply Qabs_nonneg].
Qed.

(** X14: on a frame of non-zero resolutions the cell [real_to_sim_coord]
    returns is a nearest one: on each axis no cell centre is closer to the
    point than the centre of the returned cell, under either tie rule. *)
Theorem real_to_sim_nearest (m : round_mode) (self : LinearHuman)
  (p : point) :
  ~ res_x self == 0 -> ~ res_y self == 0 ->
  exists c,
    real_to_sim_coord m self p = Ok c /\
    forall c' : cell,
      Qabs (fst (sim_to_real_coord self c) - fst p)
        <= Qabs (fst (sim_to_real_coord self c') - fst p) /\
      Qabs (snd (sim_to_real_coord self c) - snd p)
        <= Qabs (snd (sim_to_real_coord self c') - snd p).
Proof.
  intros Hx Hy.
  destruct (real_to_sim_coord_ok m self p Hx Hy) as (cx & cy & Hc & Ex & Ey).
  destruct (py_round_error m ((fst p - fst (real_lower self)) / res_x self))
    as (zx & Ex' & Bx).
  destruct (py_round_error m ((snd (real_upper self) - snd p) / res_y self))
    as (zy & Ey' & By).
  rewrite Ex in Ex'. rewrite Ey in Ey'.
  apply inject_Z_eq_inv in Ex', Ey'. subst zx zy.
  exists (cx, cy). split; [exact Hc|].
  intros [cx' cy']. unfold sim_to_real_coord. cbn [fst snd].
  split.
  - pose proof (scaled_compare (res_x self) _ _
                  (nearest_integer cx cx' _ Bx)) as H.
    eapply Qle_trans; [|eapply Qle_trans; [exact H|]];
      apply Qle_lteq; right; apply Qabs_wd; field; assumption.
  - pose proof (scaled_compare (- res_y self) _ _
                  (nearest_integer cy cy' _ By)) as H.
    eapply Qle_trans; [|eapply Qle_trans; [exact H|]];
      apply Qle_lteq; right; apply Qabs_wd; field; assumption.
Qed.

Lemma real_to_sim_nearest_witness :
  exists c,
    real_to_sim_coord HalfToEven (loaded 60 cfg_two_goals) (5 # 2, 9 # 2)
      = Ok c /\
    Qabs (fst (sim_to_real_coord (loaded 60 cfg_two_goals) c) - (5 # 2))
      <= Qabs (fst (sim_to_real_coord (loaded 60 cfg_two_goals) (0, 0)%Z)
               - (5 # 2)).
Proof.
  destruct (real_to_sim_nearest HalfToEven (loaded 60 cfg_two_goals)
              (5 # 2, 9 # 2)) as (c & Hc & Hn).
  - vm_compute. discriminate.
  - vm_compute. discriminate.
  - exists c. split; [exact Hc|]. exact (proj1 (Hn (0, 0)%Z)).
Defined.
